(** * Verbatim spline interpolator (src/verbatim_spline.hpp)

    A shallow embedding of [class Spline]: the decoder of the int16
    control-point stream ([readData], [is_segment_end], [addPoint]), the
    tangent pass ([precalculate]), the clamped accessor
    ([getPointClamped]), the two blends ([splineInterpolateBezier],
    [splineInterpolateWeighted]) and the query ([resolvePosition]).

    Conventions of the embedding:
    - [int16_t], [int] and [unsigned] values are integers of [Z]; the
      conversions [static_cast<int>] and [static_cast<unsigned>] are written
      out with their 32-bit wrap-around ([to_int], [to_unsigned]).
    - [float] is an interface ([FloatOps]); its instance is IEEE-754
      binary32 built on the Standard Library's [SpecFloat] (round to nearest
      even, executable).
    - The vector header ([vec3], [mix], [normalize], [length]) and the point
      header ([SplinePoint]) are not part of the translated unit; they are an
      interface ([VecOps]) and a record modelled on their uses.
    - A member function that can throw or leave the defined behaviour of C++
      returns [result]; one that also mutates the object returns [outcome],
      which carries the object as it is when the function ends. *)

From Stdlib Require Import ZArith Lia Bool.
From Stdlib Require Import Floats.SpecFloat.
From stdpp Require Import base list.

Local Open Scope Z_scope.

(** ** Machine integers *)

(** [static_cast<int>(u)]: reduction to 32 bits, two's complement. *)
Definition to_int (z : Z) : Z := (z + 2 ^ 31) mod 2 ^ 32 - 2 ^ 31.

(** [static_cast<unsigned>(i)]. *)
Definition to_unsigned (z : Z) : Z := z mod 2 ^ 32.

(** The values an [int16_t] holds. *)
Definition is_int16 (z : Z) : Prop := - 2 ^ 15 <= z < 2 ^ 15.

(** ** Scalars and vectors *)

(** What the unit uses of [float]: conversions from integers (which also
    give the literals [0.0f], [1.0f], [3.0f]), [+], [-], [/], [>] and
    [dnload_sqrtf]. *)
Class FloatOps := {
  float : Type;
  f_of_int : Z -> float;
  f_add : float -> float -> float;
  f_sub : float -> float -> float;
  f_div : float -> float -> float;
  f_gt : float -> float -> bool;
  dnload_sqrtf : float -> float
}.

(** What the unit uses of the vector header.  [vec_length] is the header's
    [length]; [vec3_indet] is whatever the [SplinePoint] constructor leaves
    in the two tangent fields. *)
Class VecOps (F : FloatOps) := {
  vec3 : Type;
  vec3_new : float -> float -> float -> vec3;
  v_add : vec3 -> vec3 -> vec3;
  v_sub : vec3 -> vec3 -> vec3;
  v_scale : vec3 -> float -> vec3;
  mix : vec3 -> vec3 -> float -> vec3;
  normalize : vec3 -> vec3;
  vec_length : vec3 -> float;
  vec3_indet : vec3
}.

(** ** Exceptions and results *)

(** The two [BOOST_THROW_EXCEPTION] sites. *)
Inductive exn : Type :=
| InvalidTimestamp (op4 : Z)   (* "tried to add spline point with invalid timestamp: " *)
| IncorrectSplineData.         (* "incorrect spline data" *)

(** Result of a [const] member function. [Undefined] stands for an access
    outside the sequence or the buffer. *)
Inductive result (A : Type) : Type :=
| Ok (a : A)
| Throw (e : exn)
| Undefined.
Arguments Ok {A} a.
Arguments Throw {A} e.
Arguments Undefined {A}.

#[global] Instance result_ret : MRet result := fun _ a => Ok a.
#[global] Instance result_bind : MBind result := fun _ _ f m =>
  match m with
  | Ok a => f a
  | Throw e => Throw e
  | Undefined => Undefined
  end.

#[global] Instance result_fmap : FMap result := fun _ _ f m =>
  match m with
  | Ok a => Ok (f a)
  | Throw e => Throw e
  | Undefined => Undefined
  end.

Definition of_option {A} (o : option A) : result A :=
  match o with
  | Some a => Ok a
  | None => Undefined
  end.

Section Spline.
Context {F : FloatOps} {V : VecOps F}.

(** The macro [USE_LD]: [true] in a validating build. *)
Variable USE_LD : bool.

(** ** SplinePoint *)

(** Modelled from the spec: the point record of verbatim_spline_point.hpp
    (anchor, duration to the next point, two tangent anchors), with the
    accessors and mutators the spline calls. *)
Record SplinePoint : Type := {
  m_point : vec3;
  m_timestamp : float;
  m_prev : vec3;
  m_next : vec3
}.

Definition SplinePoint_new (pos : vec3) (stamp : float) : SplinePoint :=
  {| m_point := pos; m_timestamp := stamp;
     m_prev := vec3_indet; m_next := vec3_indet |}.

Definition getPoint (p : SplinePoint) : vec3 := m_point p.
Definition getPrev (p : SplinePoint) : vec3 := m_prev p.
Definition getNext (p : SplinePoint) : vec3 := m_next p.
Definition getTimestamp (p : SplinePoint) : float := m_timestamp p.

Definition setPrev (p : SplinePoint) (v : vec3) : SplinePoint :=
  {| m_point := m_point p; m_timestamp := m_timestamp p;
     m_prev := v; m_next := m_next p |}.

Definition setNext (p : SplinePoint) (v : vec3) : SplinePoint :=
  {| m_point := m_point p; m_timestamp := m_timestamp p;
     m_prev := m_prev p; m_next := v |}.

(** ** Spline *)

Inductive SplineMode : Type := WEIGHTED | BEZIER.

Definition SplineMode_value (m : SplineMode) : Z :=
  match m with
  | WEIGHTED => 0
  | BEZIER => 1
  end.

Record Spline : Type := {
  m_points : list SplinePoint;
  m_mode : bool
}.

(** Result of a mutating member function, with the object it leaves. *)
Inductive outcome (A : Type) : Type :=
| Done (a : A) (s : Spline)
| Thrown (e : exn) (s : Spline)
| Undef.
Arguments Done {A} a s.
Arguments Thrown {A} e s.
Arguments Undef {A}.

Definition and_then {A B} (m : outcome A) (k : A -> Spline -> outcome B)
  : outcome B :=
  match m with
  | Done a s => k a s
  | Thrown e s => Thrown e s
  | Undef => Undef
  end.

(** [Spline(SplineMode mode) : m_mode(mode)]: the enumerator converts to
    [bool]. *)
Definition Spline_new (mode : SplineMode) : Spline :=
  {| m_points := []; m_mode := negb (SplineMode_value mode =? 0) |}.

Definition size (s : Spline) : Z := Z.of_nat (length (m_points s)).

(** [addPoint(const vec3&, float)]: [emplace_back]. *)
Definition addPoint_vec (pos : vec3) (stamp : float) (s : Spline) : Spline :=
  {| m_points := m_points s ++ [SplinePoint_new pos stamp];
     m_mode := m_mode s |}.

(** [addPoint(int16_t, int16_t, int16_t, int16_t)]. *)
Definition addPoint (op1 op2 op3 op4 : Z) (s : Spline) : outcome unit :=
  if USE_LD && (0 >? op4) then Thrown (InvalidTimestamp op4) s
  else Done tt (addPoint_vec
                  (vec3_new (f_of_int op1) (f_of_int op2) (f_of_int op3))
                  (f_of_int op4) s).

(** [getPointClamped(int idx)]. [back()] and [front()] of an empty sequence
    are outside defined behaviour. *)
Definition getPointClamped (s : Spline) (idx : Z) : result SplinePoint :=
  if to_int (size s) <=? idx then of_option (last (m_points s))
  else if 0 >? idx then of_option (head (m_points s))
  else of_option (m_points s !! Z.to_nat (to_unsigned idx)).

(** [splineInterpolateBezier(unsigned idx, float interp)]. *)
Definition splineInterpolateBezier (s : Spline) (idx : Z) (interp : float)
  : result vec3 :=
  let sidx := to_int idx in
  curr ← getPointClamped s sidx;
  next ← getPointClamped s (sidx + 1);
  let aa := getPoint curr in
  let bb := getNext curr in
  let cc := getPrev next in
  let dd := getPoint next in
  let ee := mix aa bb interp in
  let ff := mix bb cc interp in
  let gg := mix cc dd interp in
  let hh := mix ee ff interp in
  let ii := mix ff gg interp in
  mret (mix hh ii interp).

(** [splineInterpolateWeighted(unsigned idx, float interp)]. *)
Definition splineInterpolateWeighted (s : Spline) (idx : Z) (interp : float)
  : result vec3 :=
  let sidx := to_int idx in
  pa ← getPointClamped s (sidx - 1);
  pb ← getPointClamped s (sidx + 0);
  pc ← getPointClamped s (sidx + 1);
  pd ← getPointClamped s (sidx + 2);
  let aa := getPoint pa in
  let bb := getPoint pb in
  let cc := getPoint pc in
  let dd := getPoint pd in
  let ee := mix aa bb interp in
  let ff := mix bb cc interp in
  let gg := mix cc dd interp in
  mret (v_scale (v_add (v_add ee ff) gg)
                (f_div (f_of_int 1) (f_of_int 3))).

(** ** Tangent pass *)

(** [m_points[ii] = p], the sequence being updated in place. *)
Definition set_point (s : Spline) (ii : Z) (p : SplinePoint) : Spline :=
  {| m_points := <[Z.to_nat ii := p]> (m_points s); m_mode := m_mode s |}.

Definition lift {A} (r : result A) (s : Spline) : outcome A :=
  match r with
  | Ok a => Done a s
  | Throw e => Thrown e s
  | Undefined => Undef
  end.

(** [normalize(a - b) * dnload_sqrtf(length(a - curr)) + curr], where [a]
    and [b] are the anchors of the clamped points at [ia] and [ib] and
    [curr] the anchor of [m_points[ii]].  In the source [prev], [next] and
    [curr] are references into the sequence, so each statement reads the
    sequence as it is when the statement runs. *)
Definition tangent (s : Spline) (ii ia ib : Z) : result vec3 :=
  pa ← getPointClamped s ia;
  pb ← getPointClamped s ib;
  vv ← of_option (m_points s !! Z.to_nat ii);
  let a := getPoint pa in
  let b := getPoint pb in
  let curr := getPoint vv in
  mret (v_add (v_scale (normalize (v_sub a b))
                       (dnload_sqrtf (vec_length (v_sub a curr))))
              curr).

(** The body of the loop of [precalculate]: [vv.setPrev(..)] and then
    [vv.setNext(..)] on [vv = m_points[ii]]. *)
Definition precalculate_body (ii : Z) (s : Spline) : outcome unit :=
  and_then (lift (tangent s ii (ii - 1) (ii + 1)) s) (fun tp s =>
  and_then (lift (of_option (m_points s !! Z.to_nat ii)) s) (fun vv s =>
  let s1 := set_point s ii (setPrev vv tp) in
  and_then (lift (tangent s1 ii (ii + 1) (ii - 1)) s1) (fun tn s1 =>
  and_then (lift (of_option (m_points s1 !! Z.to_nat ii)) s1) (fun vv1 s1 =>
  Done tt (set_point s1 ii (setNext vv1 tn)))))).

Fixpoint precalculate_loop (n : nat) (ii : Z) (s : Spline) : outcome unit :=
  match n with
  | O => Done tt s
  | S n' =>
      and_then (precalculate_body ii s)
               (fun _ s' => precalculate_loop n' (ii + 1) s')
  end.

(** [precalculate()]: [for(int ii = 0; static_cast<int>(m_points.size()) > ii; ++ii)].
    The body does not change the size, so the loop runs
    [static_cast<int>(size)] times (not at all when that is negative). *)
Definition precalculate (s : Spline) : outcome unit :=
  precalculate_loop (Z.to_nat (to_int (size s))) 0 s.

(** ** Decoder *)

(** [is_segment_end(data)], on the buffer from [data] on; [&&] reads
    [data[k+1]] only when [data[k]] is zero. *)
Definition is_segment_end (data : list Z) : result bool :=
  d0 ← of_option (data !! 0%nat);
  if negb (0 =? d0) then mret false else
  d1 ← of_option (data !! 1%nat);
  if negb (0 =? d1) then mret false else
  d2 ← of_option (data !! 2%nat);
  if negb (0 =? d2) then mret false else
  d3 ← of_option (data !! 3%nat);
  mret (0 =? d3).

(** The loop of [readData]. [mem] is the buffer from [iter] on and [iter]
    the position of the cursor, in [int16_t] units; a group that is not
    whole is a read past the end of the buffer. *)
Fixpoint readData_loop (mem : list Z) (iter : Z) (s : Spline) : outcome Z :=
  match mem with
  | op1 :: op2 :: op3 :: op4 :: rest =>
      let next := iter + 4 in
      match is_segment_end mem with
      | Ok true => and_then (precalculate s) (fun _ s' => Done next s')
      | Ok false =>
          and_then (addPoint op1 op2 op3 op4 s)
                   (fun _ s' => readData_loop rest next s')
      | _ => Undef
      end
  | _ => Undef
  end.

(** [readData(data)]. *)
Definition readData (mem : list Z) (data : Z) (s : Spline) : outcome Z :=
  readData_loop mem data s.

(** ** Query *)

(** [m_mode == BEZIER]: the [bool] is promoted to [int]. *)
Definition mode_is_bezier (s : Spline) : bool :=
  Z.b2z (m_mode s) =? SplineMode_value BEZIER.

(** The loop of [resolvePosition(float)]; [rest] is [m_points[ii..]]. *)
Fixpoint resolve_loop (s : Spline) (rest : list SplinePoint) (ii : Z)
    (current_time stamp : float) : result vec3 :=
  match rest with
  | [] => p ← of_option (last (m_points s)); mret (getPoint p)
  | vv :: rest' =>
      let current_segment := getTimestamp vv in
      if f_gt (f_add current_time current_segment) stamp then
        let interp := f_div (f_sub stamp current_time) current_segment in
        if mode_is_bezier s then splineInterpolateBezier s ii interp
        else splineInterpolateWeighted s ii interp
      else
        resolve_loop s rest' (ii + 1) (f_add current_time current_segment) stamp
  end.

(** [resolvePosition(float stamp)]. *)
Definition resolvePosition (s : Spline) (stamp : float) : result vec3 :=
  if USE_LD && bool_decide (m_points s = []) then Throw IncorrectSplineData
  else resolve_loop s (m_points s) 0 (f_of_int 0) stamp.

(** [resolvePosition(unsigned stamp)]. *)
Definition resolvePosition_unsigned (s : Spline) (stamp : Z) : result vec3 :=
  resolvePosition s (f_of_int stamp).

(** ** Vocabulary of the properties *)

(** The index of the element [getPointClamped] refers to, in a sequence of
    [n] elements. *)
Definition clamp_index (n : nat) (idx : Z) : nat :=
  if to_int (Z.of_nat n) <=? idx then pred n
  else if 0 >? idx then 0%nat
  else Z.to_nat (to_unsigned idx).

(** The blend [resolvePosition] dispatches to. *)
Definition blend (s : Spline) (ii : Z) (interp : float) : result vec3 :=
  if mode_is_bezier s then splineInterpolateBezier s ii interp
  else splineInterpolateWeighted s ii interp.

(** The value the specification gives for the weighted blend at the start of
    a segment: [(A + 2B + C) / 3]. *)
Definition weighted_start_as_specified (a b c : vec3) : vec3 :=
  v_scale (v_add (v_add a (v_add b b)) c) (f_div (f_of_int 1) (f_of_int 3)).

(** [current_time] when the loop of [resolvePosition] reaches index [i]:
    the durations of the points before [i], added from the left to [0.0f]. *)
Definition time_before (s : Spline) (i : nat) : float :=
  fold_left (fun t p => f_add t (getTimestamp p)) (take i (m_points s))
            (f_of_int 0).

(** The sum over all points, the last one included. *)
Definition total_duration (s : Spline) : float :=
  time_before s (length (m_points s)).

(** The sum over all points except the last one. *)
Definition duration_without_last (s : Spline) : float :=
  time_before s (pred (length (m_points s))).

(** The test [(current_time + current_segment) > stamp] at index [i]. *)
Definition segment_test (s : Spline) (i : nat) (stamp : float) : bool :=
  match m_points s !! i with
  | Some p => f_gt (f_add (time_before s i) (getTimestamp p)) stamp
  | None => false
  end.

(** The tangent anchor built from the anchors [a], [b] and [curr]. *)
Definition tangent_anchor (a b curr : vec3) : vec3 :=
  v_add (v_scale (normalize (v_sub a b))
                 (dnload_sqrtf (vec_length (v_sub a curr))))
        curr.

(** A group of the stream: [(x, y, z, durationTicks)]. *)
Definition group : Type := Z * Z * Z * Z.

Definition encode_group (g : group) : list Z :=
  let '(x, y, z, d) := g in [x; y; z; d].

Definition encode_groups (gs : list group) : list Z :=
  concat (encode_group <$> gs).

Definition group_duration (g : group) : Z :=
  let '(_, _, _, d) := g in d.

Definition group_anchor (g : group) : vec3 :=
  let '(x, y, z, _) := g in
  vec3_new (f_of_int x) (f_of_int y) (f_of_int z).

(** The point a group is decoded to, and the object after the points of
    the groups [gs] are appended. *)
Definition group_point (g : group) : SplinePoint :=
  SplinePoint_new (group_anchor g) (f_of_int (group_duration g)).

Definition append_groups (s : Spline) (gs : list group) : Spline :=
  {| m_points := m_points s ++ (group_point <$> gs); m_mode := m_mode s |}.

(** Two objects with the same mode, anchors and durations: they differ in
    the tangent anchors at most. *)
Definition same_shape (s s' : Spline) : Prop :=
  m_mode s = m_mode s' /\
  getPoint <$> m_points s = getPoint <$> m_points s' /\
  getTimestamp <$> m_points s = getTimestamp <$> m_points s'.

(** A group [readData] takes as a point: not the terminator and, in a
    validating build, with a duration that is not negative. *)
Definition accepted (use_ld : bool) (g : group) : Prop :=
  g <> (0, 0, 0, 0) /\ (use_ld = true -> 0 <= group_duration g).


(** [mix] is exact at an end on the three adjacent pairs of four values: it
    returns its first operand at parameter 0, its second at parameter 1. *)
Definition chain_starts (a b c d : vec3) : Prop :=
  mix a b (f_of_int 0) = a /\ mix b c (f_of_int 0) = b /\
  mix c d (f_of_int 0) = c.


End Spline.

Arguments SplinePoint {F V}.
Arguments Spline {F V}.
Arguments outcome {F V} A.
Arguments Done {F V A} a s.
Arguments Thrown {F V A} e s.
Arguments Undef {F V A}.

(** ** IEEE-754 binary32 *)

Module Binary32.

Definition prec : Z := 24.
Definition emax : Z := 128.

Definition gt (x y : spec_float) : bool :=
  match SFcompare x y with
  | Some Gt => true
  | _ => false
  end.

Definition of_int (z : Z) : spec_float := binary_normalize prec emax z 0 false.

#[export] Instance ops : FloatOps := {|
  float := spec_float;
  f_of_int := of_int;
  f_add := SFadd prec emax;
  f_sub := SFsub prec emax;
  f_div := SFdiv prec emax;
  f_gt := gt;
  dnload_sqrtf := SFsqrt prec emax
|}.

Definition mul : spec_float -> spec_float -> spec_float := SFmul prec emax.

(** The sign bit of a number; NaN has none in [spec_float]. *)
Definition sign_bit (x : spec_float) : option bool :=
  match x with
  | S754_zero sx | S754_infinity sx | S754_finite sx _ _ => Some sx
  | S754_nan => None
  end.

(** [+0.0f] or a positive finite number: what [static_cast<float>] gives on
    an [int16_t] that is not negative. *)
Definition nonneg_finite (x : spec_float) : bool :=
  match x with
  | S754_zero false | S754_finite false _ _ => true
  | _ => false
  end.

(** A duration that is a binary32 number and not below zero: a zero, a
    positive number or the positive infinity, not NaN.  [static_cast<float>]
    of an [int16_t] that is not negative is one. *)
Definition duration_ok (d : spec_float) : bool :=
  valid_binary prec emax d &&
  match d with
  | S754_zero _ | S754_infinity false | S754_finite false _ _ => true
  | _ => false
  end.

(** What [current_time] holds when the durations are such: the same, and
    never the negative zero. *)
Definition time_ok (x : spec_float) : bool :=
  duration_ok x && match x with S754_zero true => false | _ => true end.

(** The least binary32 number below zero, [-2^-149]. *)
Definition least_negative : spec_float := S754_finite true 1 (-149).

(** All durations of a sequence are binary32 numbers not below zero. *)
Definition durations_ok {V : VecOps ops} (s : @Spline ops V) : bool :=
  forallb duration_ok (getTimestamp <$> m_points s).

End Binary32.

(** Modelled from the spec: the vector header over binary32, componentwise,
    with [length] the square root of the sum of squares and [normalize] the
    division by it.  The header's formula for [mix] is not known, so the
    instance takes it as an argument; [mix_lerp] and [mix_blend] are the two
    usual ways to write a linear mix. *)
Module Vec32.
Import Binary32.

Record v3 : Type := V3 { vx : spec_float; vy : spec_float; vz : spec_float }.

Definition lift1 (f : spec_float -> spec_float) (a : v3) : v3 :=
  V3 (f (vx a)) (f (vy a)) (f (vz a)).

Definition lift2 (f : spec_float -> spec_float -> spec_float) (a b : v3) : v3 :=
  V3 (f (vx a) (vx b)) (f (vy a) (vy b)) (f (vz a) (vz b)).

Definition add : v3 -> v3 -> v3 := lift2 (SFadd prec emax).
Definition sub : v3 -> v3 -> v3 := lift2 (SFsub prec emax).
Definition scale (a : v3) (k : spec_float) : v3 := lift1 (fun x => mul x k) a.

Definition len (a : v3) : spec_float :=
  SFsqrt prec emax
    (SFadd prec emax
       (SFadd prec emax (mul (vx a) (vx a)) (mul (vy a) (vy a)))
       (mul (vz a) (vz a))).

Definition norm (a : v3) : v3 := lift1 (fun x => SFdiv prec emax x (len a)) a.

Definition mix_lerp (a b : v3) (t : spec_float) : v3 :=
  add a (scale (sub b a) t).

Definition mix_blend (a b : v3) (t : spec_float) : v3 :=
  add (scale a (SFsub prec emax (of_int 1) t)) (scale b t).

Definition vec (mixf : v3 -> v3 -> spec_float -> v3) : VecOps ops := {|
  vec3 := v3;
  vec3_new := V3;
  v_add := add;
  v_sub := sub;
  v_scale := scale;
  mix := mixf;
  normalize := norm;
  vec_length := len;
  vec3_indet := V3 (of_int 0) (of_int 0) (of_int 0)
|}.

End Vec32.

(** ** Concrete curves *)

Module Scenario.

(** The curve a stream decodes to in a build without [USE_LD], from an empty
    spline of the given mode. *)
Definition decode {F : FloatOps} {V : VecOps F} (mode : SplineMode)
    (mem : list Z) : Spline :=
  match readData false mem 0 (Spline_new mode) with
  | Done _ s => s
  | _ => Spline_new mode
  end.

(** Two points 10 ticks apart, the second with a duration of 10 of its own,
    then the terminator. *)
Definition two_points : list Z := [0; 0; 0; 10; 100; 0; 0; 10; 0; 0; 0; 0].

(** Three points on a line, unevenly spaced. *)
Definition three_points : list Z :=
  [0; 0; 0; 10; 3; 0; 0; 10; 9; 0; 0; 10; 0; 0; 0; 0].

(** A group with a negative duration, then the terminator. *)
Definition negative_duration : list Z := [1; 1; 1; -1; 0; 0; 0; 0].

(** A point on the x axis, as [addPoint] makes it. *)
Definition axis_point {F : FloatOps} {V : VecOps F} (x d : Z) : SplinePoint :=
  SplinePoint_new (vec3_new (f_of_int x) (f_of_int 0) (f_of_int 0)) (f_of_int d).

(** The points of [two_points] and of [three_points] before the tangent
    pass. *)
Definition two {F : FloatOps} {V : VecOps F} (mode : SplineMode) : Spline :=
  {| m_points := [axis_point 0 10; axis_point 100 10];
     m_mode := m_mode (Spline_new mode) |}.

Definition three {F : FloatOps} {V : VecOps F} (mode : SplineMode) : Spline :=
  {| m_points := [axis_point 0 10; axis_point 3 10; axis_point 9 10];
     m_mode := m_mode (Spline_new mode) |}.

(** The binary32 curves, for either way of writing [mix]. *)
Definition curve32 (mixf : Vec32.v3 -> Vec32.v3 -> spec_float -> Vec32.v3)
    (mode : SplineMode) (mem : list Z) : @Spline Binary32.ops (Vec32.vec mixf) :=
  @decode Binary32.ops (Vec32.vec mixf) mode mem.

(** The vector instances the binary32 examples are stated with. *)
Definition lerp32 : VecOps Binary32.ops := Vec32.vec Vec32.mix_lerp.
Definition blend32 : VecOps Binary32.ops := Vec32.vec Vec32.mix_blend.

(** Four points off the axes, then the terminator. *)
Definition four_points : list Z :=
  [0; 0; 0; 10; 7; 3; -5; 10; 1; 20; 9; 10; -3; 4; 11; 5; 0; 0; 0; 0].



(** 515 points: 513 of them take the time to 2^24 ticks, where segment 513
    starts; its duration is 1 tick, that of segment 514 is 2 ticks. *)
Definition long_stream : list Z :=
  concat (replicate 512 [0; 0; 0; 32767]) ++
  [0; 0; 0; 512; 30; 0; 0; 1; 90; 0; 0; 2; 0; 0; 0; 0].

End Scenario.

(** * Properties *)

(** ** Machine integers *)

Lemma to_int_small (z : Z) : - 2 ^ 31 <= z < 2 ^ 31 -> to_int z = z.
Proof.
  intros Hz. unfold to_int.
  rewrite Z.mod_small by lia. lia.
Qed.

Lemma to_unsigned_small (z : Z) : 0 <= z < 2 ^ 32 -> to_unsigned z = z.
Proof. intros Hz. unfold to_unsigned. now rewrite Z.mod_small. Qed.

Section Facts.
Context {F : FloatOps} {V : VecOps F}.

Implicit Types (s : Spline) (p : SplinePoint) (idx : Z).

(** ** The clamped accessor *)

Lemma getPointClamped_lookup s idx :
  getPointClamped s idx
  = of_option (m_points s !! clamp_index (length (m_points s)) idx).
Proof.
  unfold getPointClamped, clamp_index, size.
  destruct (_ <=? _).
  - now rewrite last_lookup.
  - destruct (0 >? idx); [now rewrite head_lookup | reflexivity].
Qed.

Lemma clamp_index_lt (n : nat) idx :
  (0 < n)%nat -> Z.of_nat n < 2 ^ 31 -> (clamp_index n idx < n)%nat.
Proof.
  intros Hn Hsz. unfold clamp_index.
  rewrite to_int_small by lia.
  destruct (Z.leb_spec (Z.of_nat n) idx); [lia |].
  destruct (Z.gtb_spec 0 idx); [lia |].
  rewrite to_unsigned_small by lia. lia.
Qed.


Lemma getPointClamped_ok s idx :
  m_points s <> [] -> size s < 2 ^ 31 ->
  exists p, getPointClamped s idx = Ok p.
Proof.
  intros Hne Hsz. rewrite getPointClamped_lookup.
  destruct (m_points s !! _) as [p|] eqn:E; [now exists p |].
  apply lookup_ge_None in E.
  assert (0 < length (m_points s))%nat as Hpos
    by (destruct (m_points s); [congruence | cbn; lia]).
  pose proof (clamp_index_lt (length (m_points s)) idx Hpos Hsz). lia.
Qed.

(** C7. For a non-empty sequence the clamped accessor returns the first
    point for every negative index (so for -5 and -1), the last point for
    every index at or above the number of points (so for the count and for
    the count plus 100), and [m_points[idx]] for every index in between.
    It is the one boundary policy: the blends see the sequence through the
    accessor only, and the anchor [resolvePosition] returns past the end,
    read from [back()], is the anchor of the accessor at the count. *)
Theorem getPointClamped_boundary s first rest :
  m_points s = first :: rest -> size s < 2 ^ 31 ->
  exists lst, last (m_points s) = Some lst /\
    (forall idx, idx < 0 -> getPointClamped s idx = Ok first) /\
    (forall idx, size s <= idx -> getPointClamped s idx = Ok lst) /\
    (forall idx, 0 <= idx < size s ->
       exists p, m_points s !! Z.to_nat idx = Some p /\
                 getPointClamped s idx = Ok p) /\
    getPointClamped s (-5) = Ok first /\
    getPointClamped s (-1) = Ok first /\
    getPointClamped s (size s) = Ok lst /\
    getPointClamped s (size s + 100) = Ok lst /\
    (forall s' : Spline,
       (forall idx, getPointClamped s' idx = getPointClamped s idx) ->
       forall i (t : float),
         splineInterpolateBezier s' i t = splineInterpolateBezier s i t /\
         splineInterpolateWeighted s' i t = splineInterpolateWeighted s i t) /\
    (forall ii (t0 stamp : float),
       resolve_loop s [] ii t0 stamp
       = getPoint <$> getPointClamped s (size s)).
Proof.
  intros Hpts Hsz.
  assert (1 <= size s) as Hpos by (unfold size; rewrite Hpts; cbn; lia).
  destruct (last (m_points s)) as [lst|] eqn:Hlast;
    [| rewrite Hpts in Hlast; apply last_None in Hlast; discriminate].
  assert (forall idx, idx < 0 -> getPointClamped s idx = Ok first) as Hneg.
  { intros idx Hidx. unfold getPointClamped.
    rewrite to_int_small by lia.
    destruct (Z.leb_spec (size s) idx); [lia |].
    destruct (Z.gtb_spec 0 idx); [| lia].
    now rewrite Hpts. }
  assert (forall idx, size s <= idx -> getPointClamped s idx = Ok lst) as Hhigh.
  { intros idx Hidx. unfold getPointClamped.
    rewrite to_int_small by lia.
    destruct (Z.leb_spec (size s) idx); [| lia].
    now rewrite Hlast. }
  exists lst. split; [reflexivity |].
  split; [exact Hneg |]. split; [exact Hhigh |]. split.
  { intros idx Hidx. unfold getPointClamped.
    rewrite to_int_small by lia.
    destruct (Z.leb_spec (size s) idx); [lia |].
    destruct (Z.gtb_spec 0 idx); [lia |].
    rewrite to_unsigned_small by lia.
    destruct (m_points s !! Z.to_nat idx) as [p|] eqn:E; [now exists p |].
    apply lookup_ge_None in E. unfold size in Hidx. lia. }
  repeat (split; [first [apply Hneg | apply Hhigh]; lia |]).
  split.
  - intros s' Hsame i t.
    unfold splineInterpolateBezier, splineInterpolateWeighted.
    now rewrite !Hsame.
  - intros ii t0 stamp. cbn [resolve_loop].
    rewrite (Hhigh (size s)) by lia. now rewrite Hlast.
Qed.

(** ** Decoding one group *)

Lemma is_segment_end_group (op1 op2 op3 op4 : Z) (rest : list Z) :
  is_segment_end (op1 :: op2 :: op3 :: op4 :: rest)
  = Ok ((0 =? op1) && (0 =? op2) && (0 =? op3) && (0 =? op4)).
Proof.
  destruct op1, op2, op3; reflexivity.
Qed.

(** ** The blends return *)

Lemma splineInterpolateBezier_ok s idx (t : float) :
  m_points s <> [] -> size s < 2 ^ 31 ->
  exists v, splineInterpolateBezier s idx t = Ok v.
Proof.
  intros Hne Hsz. unfold splineInterpolateBezier.
  destruct (getPointClamped_ok s (to_int idx) Hne Hsz) as [curr ->].
  destruct (getPointClamped_ok s (to_int idx + 1) Hne Hsz) as [next ->].
  cbn. eauto.
Qed.

Lemma splineInterpolateWeighted_ok s idx (t : float) :
  m_points s <> [] -> size s < 2 ^ 31 ->
  exists v, splineInterpolateWeighted s idx t = Ok v.
Proof.
  intros Hne Hsz. unfold splineInterpolateWeighted.
  destruct (getPointClamped_ok s (to_int idx - 1) Hne Hsz) as [pa ->].
  destruct (getPointClamped_ok s (to_int idx + 0) Hne Hsz) as [pb ->].
  destruct (getPointClamped_ok s (to_int idx + 1) Hne Hsz) as [pc ->].
  destruct (getPointClamped_ok s (to_int idx + 2) Hne Hsz) as [pd ->].
  cbn. eauto.
Qed.

Lemma mode_is_bezier_m_mode s : mode_is_bezier s = m_mode s.
Proof. unfold mode_is_bezier. now destruct (m_mode s). Qed.

Lemma mode_of_Spline_new (mode : SplineMode) :
  mode_is_bezier (Spline_new mode)
  = match mode with BEZIER => true | WEIGHTED => false end.
Proof. now destruct mode. Qed.

Lemma blend_ok s ii (t : float) :
  m_points s <> [] -> size s < 2 ^ 31 -> exists v, blend s ii t = Ok v.
Proof.
  intros Hne Hsz. unfold blend.
  destruct (mode_is_bezier s);
    [now apply splineInterpolateBezier_ok
    | now apply splineInterpolateWeighted_ok].
Qed.

Lemma resolve_loop_ok s (rest : list SplinePoint) ii (t0 stamp : float) :
  m_points s <> [] -> size s < 2 ^ 31 ->
  exists v, resolve_loop s rest ii t0 stamp = Ok v.
Proof.
  intros Hne Hsz. revert ii t0.
  induction rest as [|vv rest IH]; intros ii t0; cbn [resolve_loop].
  - destruct (last (m_points s)) as [p|] eqn:E; [cbn; eauto |].
    now apply last_None in E.
  - destruct (f_gt _ stamp); [| apply IH].
    now apply blend_ok.
Qed.

(** C9. In a validating build [resolvePosition] on an empty sequence throws
    and returns no position; on a non-empty sequence it returns a position
    in either build, so the throw is never taken.  (Without [USE_LD] the
    query on an empty sequence reads [back()] of it.) *)
Theorem resolvePosition_empty_check s (stamp : float) :
  size s < 2 ^ 31 ->
  (m_points s = [] ->
     resolvePosition true s stamp = Throw IncorrectSplineData /\
     resolvePosition false s stamp = Undefined) /\
  (m_points s <> [] ->
     forall use_ld, exists v, resolvePosition use_ld s stamp = Ok v).
Proof.
  intros Hsz. split.
  - intros E. unfold resolvePosition. rewrite E. cbn [resolve_loop].
    rewrite E. split; reflexivity.
  - intros Hne use_ld. unfold resolvePosition.
    rewrite bool_decide_eq_false_2 by assumption.
    rewrite andb_false_r. now apply resolve_loop_ok.
Qed.

(** ** The blends *)


(** C5, as the code has it. The weighted blend is the sum of the three
    pairwise mixes of the clamped anchors at [i - 1 .. i + 2], scaled by
    [1 / 3]; where [mix] is exact at parameter 0 on the three adjacent
    pairs of these anchors, the blend at 0 is [(A + B + C) * (1 / 3)]. *)
Theorem splineInterpolateWeighted_average s (i : Z) (t : float) :
  m_points s <> [] -> size s < 2 ^ 31 -> 0 <= i < 2 ^ 31 - 2 ->
  exists pa pb pc pd,
    getPointClamped s (i - 1) = Ok pa /\
    getPointClamped s i = Ok pb /\
    getPointClamped s (i + 1) = Ok pc /\
    getPointClamped s (i + 2) = Ok pd /\
    splineInterpolateWeighted s i t
    = Ok (v_scale
            (v_add (v_add (mix (getPoint pa) (getPoint pb) t)
                          (mix (getPoint pb) (getPoint pc) t))
                   (mix (getPoint pc) (getPoint pd) t))
            (f_div (f_of_int 1) (f_of_int 3))) /\
    (chain_starts (getPoint pa) (getPoint pb) (getPoint pc) (getPoint pd) ->
     splineInterpolateWeighted s i (f_of_int 0)
     = Ok (v_scale (v_add (v_add (getPoint pa) (getPoint pb)) (getPoint pc))
                   (f_div (f_of_int 1) (f_of_int 3)))).
Proof.
  intros Hne Hsz Hi.
  destruct (getPointClamped_ok s (i - 1) Hne Hsz) as [pa Ha].
  destruct (getPointClamped_ok s i Hne Hsz) as [pb Hb].
  destruct (getPointClamped_ok s (i + 1) Hne Hsz) as [pc Hc].
  destruct (getPointClamped_ok s (i + 2) Hne Hsz) as [pd Hd].
  exists pa, pb, pc, pd. repeat (split; [assumption |]).
  unfold splineInterpolateWeighted.
  rewrite to_int_small by lia. rewrite Z.add_0_r, Ha, Hb, Hc, Hd. cbn.
  split; [reflexivity |].
  intros (H1 & H2 & H3). now rewrite H1, H2, H3.
Qed.

(** ** The query *)

Lemma time_before_S s (k : nat) q :
  m_points s !! k = Some q ->
  time_before s (S k) = f_add (time_before s k) (getTimestamp q).
Proof.
  intros Hq. unfold time_before.
  now rewrite (take_S_r _ _ _ Hq), fold_left_app.
Qed.

Lemma segment_test_lookup s (k : nat) q (stamp : float) :
  m_points s !! k = Some q ->
  segment_test s k stamp
  = f_gt (f_add (time_before s k) (getTimestamp q)) stamp.
Proof. intros Hq. unfold segment_test. now rewrite Hq. Qed.

(** The loop, started at index [k] with the time accumulated so far, stops
    at the first index whose test succeeds. *)
Lemma resolve_loop_select s (stamp : float) (n k i : nat) p :
  i = (k + n)%nat ->
  m_points s !! i = Some p ->
  (forall j, (k <= j < i)%nat -> segment_test s j stamp = false) ->
  segment_test s i stamp = true ->
  resolve_loop s (drop k (m_points s)) (Z.of_nat k) (time_before s k) stamp
  = blend s (Z.of_nat i)
          (f_div (f_sub stamp (time_before s i)) (getTimestamp p)).
Proof.
  revert k. induction n as [|n IH]; intros k Hi Hp Hbefore Htest.
  - replace i with k in * by lia.
    rewrite (drop_S _ _ _ Hp). cbn [resolve_loop].
    rewrite (segment_test_lookup _ _ _ _ Hp) in Htest.
    now rewrite Htest.
  - destruct (lookup_lt_is_Some_2 (m_points s) k) as [q Hq].
    { apply lookup_lt_Some in Hp. lia. }
    rewrite (drop_S _ _ _ Hq). cbn [resolve_loop].
    pose proof (Hbefore k ltac:(lia)) as Hk.
    rewrite (segment_test_lookup _ _ _ _ Hq) in Hk. rewrite Hk.
    rewrite <- (time_before_S _ _ _ Hq).
    replace (Z.of_nat k + 1) with (Z.of_nat (S k)) by lia.
    apply IH; [lia | assumption | | assumption].
    intros j Hj. apply Hbefore. lia.
Qed.

(** When no test succeeds the loop ends and the anchor of [back()] is
    returned. *)
Lemma resolve_loop_none s (stamp : float) (n k : nat) :
  (k + n)%nat = length (m_points s) ->
  (forall j, (k <= j)%nat -> segment_test s j stamp = false) ->
  resolve_loop s (drop k (m_points s)) (Z.of_nat k) (time_before s k) stamp
  = (p ← of_option (last (m_points s)); mret (getPoint p)).
Proof.
  revert k. induction n as [|n IH]; intros k Hlen Hnone.
  - rewrite drop_ge by lia. reflexivity.
  - destruct (lookup_lt_is_Some_2 (m_points s) k) as [q Hq]; [lia |].
    rewrite (drop_S _ _ _ Hq). cbn [resolve_loop].
    pose proof (Hnone k ltac:(lia)) as Hk.
    rewrite (segment_test_lookup _ _ _ _ Hq) in Hk. rewrite Hk.
    rewrite <- (time_before_S _ _ _ Hq).
    replace (Z.of_nat k + 1) with (Z.of_nat (S k)) by lia.
    apply IH; [lia |]. intros j Hj. apply Hnone. lia.
Qed.

Lemma bounded_search (P : nat -> bool) (n : nat) :
  (exists j, (j < n)%nat /\ P j = true) \/
  (forall j, (j < n)%nat -> P j = false).
Proof.
  induction n as [|n [[j [Hj HP]]|Hall]].
  - right. intros j Hj. lia.
  - left. exists j. split; [lia | assumption].
  - destruct (P n) eqn:HPn.
    + left. exists n. split; [lia | assumption].
    + right. intros j Hj.
      destruct (Nat.eq_dec j n) as [->|Hne]; [assumption | apply Hall; lia].
Qed.

Lemma first_success (P : nat -> bool) (n : nat) :
  (exists j, (j < n)%nat /\ P j = true) ->
  exists i, (i < n)%nat /\ P i = true /\
            forall j, (j < i)%nat -> P j = false.
Proof.
  induction n as [|n IH]; intros [j [Hj HP]]; [lia |].
  destruct (bounded_search P n) as [Hex|Hall].
  - destruct (IH Hex) as [i [Hi [HPi Hmin]]].
    exists i. repeat split; [lia | assumption | assumption].
  - exists n. repeat split; [lia | | exact Hall].
    destruct (Nat.eq_dec j n) as [->|Hne]; [assumption |].
    rewrite Hall in HP by lia. discriminate.
Qed.

Lemma resolvePosition_loop use_ld s (stamp : float) :
  m_points s <> [] ->
  resolvePosition use_ld s stamp
  = resolve_loop s (drop 0 (m_points s)) (Z.of_nat 0) (time_before s 0) stamp.
Proof.
  intros Hne. unfold resolvePosition.
  rewrite bool_decide_eq_false_2 by assumption.
  now rewrite andb_false_r.
Qed.

(** Where the dispatch goes: [m_mode == BEZIER] is [m_mode]. *)
Lemma blend_dispatch s ii (t : float) :
  blend s ii t
  = if m_mode s then splineInterpolateBezier s ii t
    else splineInterpolateWeighted s ii t.
Proof. unfold blend. now rewrite mode_is_bezier_m_mode. Qed.

(** Below the sum of all durations some test succeeds, and the query
    returns from the first index where one does. *)
Lemma resolvePosition_first_success use_ld s (stamp : float) :
  m_points s <> [] ->
  f_gt (total_duration s) stamp = true ->
  exists (i : nat) p,
    m_points s !! i = Some p /\
    (forall j, (j < i)%nat -> segment_test s j stamp = false) /\
    segment_test s i stamp = true /\
    resolvePosition use_ld s stamp
    = blend s (Z.of_nat i)
            (f_div (f_sub stamp (time_before s i)) (getTimestamp p)).
Proof.
  intros Hne Hbelow.
  assert (exists j, (j < length (m_points s))%nat /\
                    segment_test s j stamp = true) as Hex.
  { assert (0 < length (m_points s))%nat as Hpos
      by (destruct (m_points s); [congruence | cbn; lia]).
    destruct (lookup_lt_is_Some_2 (m_points s) (pred (length (m_points s))))
      as [q Hq]; [lia |].
    exists (pred (length (m_points s))). split; [lia |].
    rewrite (segment_test_lookup _ _ _ _ Hq).
    rewrite <- (time_before_S _ _ _ Hq).
    unfold total_duration in Hbelow.
    now replace (S (pred (length (m_points s))))
      with (length (m_points s)) by lia. }
  destruct (first_success (fun j => segment_test s j stamp) _ Hex)
    as [i [Hi [Htest Hmin]]].
  destruct (lookup_lt_is_Some_2 (m_points s) i Hi) as [p Hp].
  exists i, p. repeat split; try assumption.
  rewrite resolvePosition_loop by assumption.
  apply (resolve_loop_select s stamp i 0 i p);
    [lia | assumption | | assumption].
  intros j Hj. apply Hmin. lia.
Qed.

(** When no test succeeds the query returns the anchor of the last
    point. *)
Lemma resolvePosition_past_end use_ld s lst (stamp : float) :
  last (m_points s) = Some lst ->
  (forall i, segment_test s i stamp = false) ->
  resolvePosition use_ld s stamp = Ok (getPoint lst).
Proof.
  intros Hlast Hnone.
  assert (m_points s <> []) as Hne by (intros E; now rewrite E in Hlast).
  rewrite resolvePosition_loop by assumption.
  rewrite (resolve_loop_none s stamp (length (m_points s)) 0);
    [now rewrite Hlast | lia | auto].
Qed.

(** ** The tangent pass *)

Lemma tangent_eq s (ii : nat) ia ib pa pb p :
  getPointClamped s ia = Ok pa ->
  getPointClamped s ib = Ok pb ->
  m_points s !! ii = Some p ->
  tangent s (Z.of_nat ii) ia ib
  = Ok (tangent_anchor (getPoint pa) (getPoint pb) (getPoint p)).
Proof.
  intros Ha Hb Hp. unfold tangent.
  now rewrite Ha, Hb, Nat2Z.id, Hp.
Qed.

(** [getPointClamped] on two sequences with the same anchors refers to
    points with the same anchor. *)
Lemma getPointClamped_anchor s s' idx p :
  m_point <$> m_points s' = m_point <$> m_points s ->
  getPointClamped s idx = Ok p ->
  exists p', getPointClamped s' idx = Ok p' /\ getPoint p' = getPoint p.
Proof.
  intros Hanch. rewrite !getPointClamped_lookup.
  assert (length (m_points s') = length (m_points s)) as ->
    by (rewrite <- (length_fmap m_point), Hanch; apply length_fmap).
  set (c := clamp_index _ idx).
  assert ((m_point <$> m_points s') !! c = (m_point <$> m_points s) !! c) as E
    by now rewrite Hanch.
  rewrite !list_lookup_fmap in E.
  destruct (m_points s !! c) as [q|]; [| discriminate].
  destruct (m_points s' !! c) as [q'|]; [| discriminate].
  cbn in E. intros [= <-]. exists q'.
  split; [reflexivity | unfold getPoint; congruence].
Qed.

Lemma set_point_anchors s (k : nat) p q :
  m_points s !! k = Some p -> m_point q = m_point p ->
  m_point <$> m_points (set_point s (Z.of_nat k) q) = m_point <$> m_points s.
Proof.
  intros Hp Hq. unfold set_point. cbn [m_points].
  rewrite Nat2Z.id, list_fmap_insert, Hq.
  apply list_insert_id. now rewrite list_lookup_fmap, Hp.
Qed.

(** One iteration writes the two tangent anchors of [m_points[k]], both
    computed from the anchors that were there before it. *)
Lemma precalculate_body_eq s (k : nat) p prev next :
  m_points s !! k = Some p ->
  getPointClamped s (Z.of_nat k - 1) = Ok prev ->
  getPointClamped s (Z.of_nat k + 1) = Ok next ->
  precalculate_body (Z.of_nat k) s
  = Done tt
      (set_point s (Z.of_nat k)
         {| m_point := m_point p; m_timestamp := m_timestamp p;
            m_prev := tangent_anchor (getPoint prev) (getPoint next) (getPoint p);
            m_next := tangent_anchor (getPoint next) (getPoint prev) (getPoint p) |}).
Proof.
  intros Hp Hprev Hnext. unfold precalculate_body.
  rewrite (tangent_eq s k _ _ prev next p) by assumption.
  cbn [lift and_then]. rewrite Nat2Z.id, Hp. cbn [of_option lift and_then].
  set (tp := tangent_anchor _ _ _).
  set (s1 := set_point s (Z.of_nat k) (setPrev p tp)).
  assert (m_point <$> m_points s1 = m_point <$> m_points s) as Hanch
    by now apply (set_point_anchors s k p).
  assert (m_points s1 !! k = Some (setPrev p tp)) as Hp1.
  { unfold s1, set_point. cbn [m_points]. rewrite Nat2Z.id.
    apply list_lookup_insert_eq. now apply lookup_lt_Some in Hp. }
  destruct (getPointClamped_anchor s s1 _ _ Hanch Hprev) as [prev1 [Hprev1 Eprev]].
  destruct (getPointClamped_anchor s s1 _ _ Hanch Hnext) as [next1 [Hnext1 Enext]].
  rewrite (tangent_eq s1 k _ _ next1 prev1 (setPrev p tp)) by assumption.
  cbn [lift and_then]. rewrite Hp1. cbn [of_option lift and_then].
  f_equal. unfold s1, set_point. cbn [m_points m_mode].
  rewrite list_insert_insert_eq. rewrite Eprev, Enext. reflexivity.
Qed.

Lemma precalculate_loop_spec (n : nat) : forall (k : nat) s,
  size s < 2 ^ 31 ->
  (k + n <= length (m_points s))%nat ->
  exists s',
    precalculate_loop n (Z.of_nat k) s = Done tt s' /\
    m_mode s' = m_mode s /\
    m_point <$> m_points s' = m_point <$> m_points s /\
    length (m_points s') = length (m_points s) /\
    (forall j, (j < k \/ k + n <= j)%nat ->
               m_points s' !! j = m_points s !! j) /\
    (forall j p, (k <= j < k + n)%nat -> m_points s !! j = Some p ->
       exists prev next,
         getPointClamped s (Z.of_nat j - 1) = Ok prev /\
         getPointClamped s (Z.of_nat j + 1) = Ok next /\
         m_points s' !! j
         = Some {| m_point := m_point p; m_timestamp := m_timestamp p;
                   m_prev := tangent_anchor (getPoint prev) (getPoint next)
                                            (getPoint p);
                   m_next := tangent_anchor (getPoint next) (getPoint prev)
                                            (getPoint p) |}).
Proof.
  induction n as [|n IH]; intros k s Hsz Hk.
  - exists s. cbn [precalculate_loop]. repeat split; try reflexivity.
    intros j p Hj. lia.
  - destruct (lookup_lt_is_Some_2 (m_points s) k) as [p Hp]; [lia |].
    assert (m_points s <> []) as Hne by (intros E; now rewrite E in Hp).
    destruct (getPointClamped_ok s (Z.of_nat k - 1) Hne Hsz) as [prev Hprev].
    destruct (getPointClamped_ok s (Z.of_nat k + 1) Hne Hsz) as [next Hnext].
    cbn [precalculate_loop].
    rewrite (precalculate_body_eq s k p prev next) by assumption.
    cbn [and_then].
    set (q := {| m_point := m_point p |}).
    set (s1 := set_point s (Z.of_nat k) q).
    assert (m_point <$> m_points s1 = m_point <$> m_points s) as Hanch
      by now apply (set_point_anchors s k p).
    assert (length (m_points s1) = length (m_points s)) as Hlen
      by (unfold s1, set_point; cbn [m_points]; apply length_insert).
    assert (forall j, j <> k -> m_points s1 !! j = m_points s !! j) as Hother.
    { intros j Hj. unfold s1, set_point. cbn [m_points]. rewrite Nat2Z.id.
      now apply list_lookup_insert_ne. }
    assert (m_points s1 !! k = Some q) as Hq.
    { unfold s1, set_point. cbn [m_points]. rewrite Nat2Z.id.
      apply list_lookup_insert_eq. now apply lookup_lt_Some in Hp. }
    replace (Z.of_nat k + 1) with (Z.of_nat (S k)) by lia.
    destruct (IH (S k) s1) as [s' [Hrun [Hmode [Hanch' [Hlen' [Hout Hin]]]]]].
    { unfold size. rewrite Hlen. exact Hsz. }
    { rewrite Hlen. lia. }
    exists s'. split; [exact Hrun |].
    split; [now rewrite Hmode |].
    split; [now rewrite Hanch' |].
    split; [now rewrite Hlen' |].
    split.
    + intros j Hj. rewrite Hout by lia. apply Hother. lia.
    + intros j pj Hj Hpj.
      destruct (Nat.eq_dec j k) as [->|Hne'].
      * rewrite Hout by lia. rewrite Hq.
        assert (pj = p) as -> by congruence.
        exists prev, next. auto.
      * rewrite <- Hother in Hpj by assumption.
        destruct (Hin j pj ltac:(lia) Hpj) as [prev1 [next1 [H1 [H2 H3]]]].
        destruct (getPointClamped_anchor s1 s _ _ (eq_sym Hanch) H1)
          as [prev0 [H1' E1]].
        destruct (getPointClamped_anchor s1 s _ _ (eq_sym Hanch) H2)
          as [next0 [H2' E2]].
        exists prev0, next0. rewrite E1, E2. auto.
Qed.

(** C6. [precalculate] returns, and point [i] then holds
    [normalize(prev - next) * sqrt(length(prev - curr)) + curr] and
    [normalize(next - prev) * sqrt(length(next - curr)) + curr] as its two
    tangent anchors, [prev] and [next] being the anchors of the clamped
    points at [i - 1] and [i + 1]; its anchor and duration, the number of
    points and the mode are as before. *)
Theorem precalculate_tangents s :
  size s < 2 ^ 31 ->
  exists s',
    precalculate s = Done tt s' /\
    m_mode s' = m_mode s /\
    length (m_points s') = length (m_points s) /\
    forall (i : nat) p, m_points s !! i = Some p ->
      exists prev next,
        getPointClamped s (Z.of_nat i - 1) = Ok prev /\
        getPointClamped s (Z.of_nat i + 1) = Ok next /\
        m_points s' !! i
        = Some {| m_point := getPoint p;
                  m_timestamp := getTimestamp p;
                  m_prev :=
                    v_add (v_scale
                             (normalize (v_sub (getPoint prev) (getPoint next)))
                             (dnload_sqrtf
                                (vec_length (v_sub (getPoint prev) (getPoint p)))))
                          (getPoint p);
                  m_next :=
                    v_add (v_scale
                             (normalize (v_sub (getPoint next) (getPoint prev)))
                             (dnload_sqrtf
                                (vec_length (v_sub (getPoint next) (getPoint p)))))
                          (getPoint p) |}.
Proof.
  intros Hsz. unfold precalculate.
  rewrite to_int_small by (unfold size in *; lia).
  unfold size. rewrite Nat2Z.id.
  destruct (precalculate_loop_spec (length (m_points s)) 0 s Hsz ltac:(lia))
    as [s' [Hrun [Hmode [_ [Hlen [_ Hin]]]]]].
  exists s'. repeat split; try assumption.
  intros i p Hp. apply Hin; [| assumption].
  apply lookup_lt_Some in Hp. lia.
Qed.

(** ** The decoder *)

Lemma precalculate_preserves s :
  size s < 2 ^ 31 ->
  exists s',
    precalculate s = Done tt s' /\
    m_mode s' = m_mode s /\
    getPoint <$> m_points s' = getPoint <$> m_points s /\
    getTimestamp <$> m_points s' = getTimestamp <$> m_points s.
Proof.
  intros Hsz. unfold precalculate.
  rewrite to_int_small by (unfold size in *; lia).
  unfold size. rewrite Nat2Z.id.
  destruct (precalculate_loop_spec (length (m_points s)) 0 s Hsz ltac:(lia))
    as [s' [Hrun [Hmode [Hanch [Hlen [_ Hin]]]]]].
  exists s'. repeat split; try assumption.
  apply list_eq. intros i. rewrite !list_lookup_fmap.
  destruct (m_points s !! i) as [p|] eqn:Hp.
  - destruct (Hin i p) as [prev [next [_ [_ ->]]]]; [| assumption |].
    + apply lookup_lt_Some in Hp. lia.
    + reflexivity.
  - apply lookup_ge_None in Hp.
    rewrite (lookup_ge_None_2 (m_points s')) by lia. reflexivity.
Qed.

Lemma addPoint_accepts use_ld s (x y z d : Z) :
  use_ld = false \/ 0 <= d ->
  addPoint use_ld x y z d s
  = Done tt (addPoint_vec (vec3_new (f_of_int x) (f_of_int y) (f_of_int z))
                          (f_of_int d) s).
Proof.
  intros H. unfold addPoint.
  destruct H as [->|H]; [reflexivity |].
  destruct (Z.gtb_spec 0 d); [lia |]. now rewrite andb_false_r.
Qed.

Lemma nonzero_group_not_end (x y z d : Z) :
  (x, y, z, d) <> (0, 0, 0, 0) ->
  (0 =? x) && (0 =? y) && (0 =? z) && (0 =? d) = false.
Proof.
  intros Hne.
  destruct (Z.eqb_spec 0 x) as [<-|]; [| reflexivity].
  destruct (Z.eqb_spec 0 y) as [<-|]; [| reflexivity].
  destruct (Z.eqb_spec 0 z) as [<-|]; [| reflexivity].
  destruct (Z.eqb_spec 0 d) as [<-|]; [congruence | reflexivity].
Qed.

(** C8. In a validating build, a group whose fourth value is negative makes
    [addPoint] throw with the object untouched, and [readData] throws when
    it reaches that group: the object then holds the points of the groups
    before it and nothing of the group itself.  In a build without
    [USE_LD] there is no check and the point is appended. *)
Theorem addPoint_invalid_timestamp s (op1 op2 op3 op4 : Z) :
  op4 < 0 ->
  addPoint true op1 op2 op3 op4 s = Thrown (InvalidTimestamp op4) s /\
  (forall (before : list group) (mem : list Z) (data : Z),
     Forall (fun g => g <> (0, 0, 0, 0) /\ 0 <= group_duration g) before ->
     readData true (encode_groups before ++ op1 :: op2 :: op3 :: op4 :: mem)
              data s
     = Thrown (InvalidTimestamp op4) (append_groups s before)) /\
  addPoint false op1 op2 op3 op4 s
  = Done tt {| m_points :=
                 m_points s ++
                 [SplinePoint_new
                    (vec3_new (f_of_int op1) (f_of_int op2) (f_of_int op3))
                    (f_of_int op4)];
               m_mode := m_mode s |}.
Proof.
  intros Hneg.
  assert (forall s', addPoint true op1 op2 op3 op4 s'
                     = Thrown (InvalidTimestamp op4) s') as Hthrow.
  { intros s'. unfold addPoint.
    destruct (Z.gtb_spec 0 op4); [reflexivity | lia]. }
  split; [apply Hthrow |]. split; [| reflexivity].
  intros before mem data. unfold readData. revert s data.
  induction before as [|[[[x y] z] d] before IH]; intros s data Hok.
  - cbn [encode_groups concat fmap list_fmap app readData_loop].
    rewrite is_segment_end_group.
    destruct (Z.eqb_spec 0 op4) as [E|_]; [lia |].
    rewrite andb_false_r, Hthrow. cbn [and_then].
    f_equal. destruct s. unfold append_groups. cbn.
    now rewrite app_nil_r.
  - apply Forall_cons in Hok as [[Hg Hd] Hok].
    cbn [encode_groups concat fmap list_fmap encode_group app readData_loop].
    rewrite is_segment_end_group, (nonzero_group_not_end _ _ _ _ Hg).
    rewrite (addPoint_accepts true s x y z d (or_intror Hd)). cbn [and_then].
    etrans; [apply (IH _ (data + 4) Hok) |].
    f_equal. unfold append_groups, addPoint_vec. cbn [m_points m_mode].
    now rewrite <- app_assoc.
Qed.

(** C2, as the code has it. On [n] groups, none of them all zero and, in a
    validating build, none with a negative fourth value, followed by an
    all-zero group, [readData] appends the [n] points in stream order, with
    anchor [(float(x), float(y), float(z))] and duration [float(d)], runs
    the tangent pass on the sequence so extended, and returns the cursor
    [4 * (n + 1)] units past [data]; what follows the terminator is not
    read. *)
Theorem readData_decodes use_ld s (groups : list group) (tail : list Z)
    (data : Z) :
  Forall (fun g => g <> (0, 0, 0, 0)) groups ->
  (use_ld = false \/ Forall (fun g => 0 <= group_duration g) groups) ->
  size s + Z.of_nat (length groups) < 2 ^ 31 ->
  exists s',
    readData use_ld (encode_groups groups ++ [0; 0; 0; 0] ++ tail) data s
    = Done (data + 4 * (Z.of_nat (length groups) + 1)) s' /\
    precalculate (append_groups s groups) = Done tt s' /\
    m_mode s' = m_mode s /\
    length (m_points s') = (length (m_points s) + length groups)%nat /\
    getPoint <$> m_points s'
    = (getPoint <$> m_points s) ++ (group_anchor <$> groups) /\
    getTimestamp <$> m_points s'
    = (getTimestamp <$> m_points s) ++ (f_of_int ∘ group_duration <$> groups).
Proof.
  unfold readData. revert s data.
  induction groups as [|[[[x y] z] d] groups IH]; intros s data Hnz Hdur Hsz.
  - cbn [encode_groups concat fmap list_fmap app readData_loop].
    rewrite is_segment_end_group. cbn [Z.eqb andb].
    assert (append_groups s [] = s) as ->
      by (destruct s; unfold append_groups; cbn; now rewrite app_nil_r).
    destruct (precalculate_preserves s) as [s' [-> [Hmode [Hanch Hts]]]];
      [cbn [length] in Hsz; lia |].
    exists s'. cbn [and_then length fmap list_fmap].
    rewrite !app_nil_r, Nat.add_0_r.
    split; [f_equal; lia |].
    split; [reflexivity |].
    split; [assumption |].
    split; [| now split].
    rewrite <- (length_fmap getPoint), Hanch. apply length_fmap.
  - apply Forall_cons in Hnz as [Hg Hnz].
    assert (use_ld = false \/ 0 <= d) as Hd.
    { destruct Hdur as [->|Hdur]; [now left | right].
      now apply Forall_cons in Hdur as [Hd _]. }
    assert (use_ld = false \/ Forall (fun g => 0 <= group_duration g) groups)
      as Hdur'.
    { destruct Hdur as [->|Hdur]; [now left | right].
      now apply Forall_cons in Hdur as [_ Hdur]. }
    cbn [encode_groups concat fmap list_fmap encode_group app readData_loop].
    rewrite is_segment_end_group, (nonzero_group_not_end _ _ _ _ Hg).
    rewrite (addPoint_accepts _ _ _ _ _ _ Hd). cbn [and_then].
    set (s1 := addPoint_vec _ _ s).
    assert (length (m_points s1) = S (length (m_points s))) as Hlen1
      by (unfold s1, addPoint_vec; cbn [m_points]; rewrite length_app;
          cbn [length]; lia).
    assert (append_groups s1 groups = append_groups s ((x, y, z, d) :: groups))
      as Happ.
    { unfold append_groups, s1, addPoint_vec. cbn [m_points m_mode].
      now rewrite <- app_assoc. }
    destruct (IH s1 (data + 4) Hnz Hdur')
      as [s' [Hrun [Hpre [Hmode [Hlen [Hanch Hts]]]]]].
    { unfold size in *. rewrite Hlen1. cbn [length] in Hsz. lia. }
    exists s'. split.
    { etrans; [exact Hrun |]. f_equal. cbn [length]. lia. }
    split; [rewrite Happ in Hpre; exact Hpre |].
    split; [exact Hmode |].
    split; [rewrite Hlen, Hlen1; cbn [length]; lia |].
    split.
    + rewrite Hanch. unfold s1, addPoint_vec. cbn [m_points].
      rewrite fmap_app, <- app_assoc. reflexivity.
    + rewrite Hts. unfold s1, addPoint_vec. cbn [m_points].
      rewrite fmap_app, <- app_assoc. reflexivity.
Qed.

End Facts.

(** ** binary32: conversions and rounding *)

Module Binary32Facts.
Import Binary32.

Lemma shr_1_nonneg (mrs : shr_record) :
  0 <= shr_m mrs -> 0 <= shr_m (shr_1 mrs).
Proof.
  destruct mrs as [m r t]. cbn [shr_m]. intros Hm.
  destruct m as [|[q|q|]|q]; cbn; lia.
Qed.

Lemma iter_shr_1_nonneg (n : positive) : forall mrs,
  0 <= shr_m mrs -> 0 <= shr_m (SpecFloat.iter_pos shr_1 n mrs).
Proof.
  induction n as [n IH|n IH|]; intros mrs Hm; cbn [SpecFloat.iter_pos].
  - apply IH, IH. now apply shr_1_nonneg.
  - now apply IH, IH.
  - now apply shr_1_nonneg.
Qed.

Lemma shr_fexp_nonneg (m e : Z) (l : location) :
  0 <= m -> 0 <= shr_m (fst (shr_fexp prec emax m e l)).
Proof.
  intros Hm. unfold shr_fexp, shr.
  assert (0 <= shr_m (shr_record_of_loc m l)) as H0
    by (destruct l as [|[]]; exact Hm).
  destruct (_ - e) as [|n|n]; cbn [fst]; [assumption | | assumption].
  now apply iter_shr_1_nonneg.
Qed.

Lemma round_nearest_even_nonneg (m : Z) (l : location) :
  0 <= m -> 0 <= round_nearest_even m l.
Proof.
  intros Hm. unfold round_nearest_even.
  destruct l as [|[]]; try destruct (Z.even m); lia.
Qed.

(** Rounding keeps the sign it is given and never yields NaN. *)
Lemma binary_round_aux_sign (sx : bool) (mx ex : Z) (lx : location) :
  0 <= mx -> sign_bit (binary_round_aux prec emax sx mx ex lx) = Some sx.
Proof.
  intros Hm. unfold binary_round_aux.
  pose proof (shr_fexp_nonneg mx ex lx Hm) as H1.
  destruct (shr_fexp prec emax mx ex lx) as [mrs' e']. cbn [fst] in H1.
  pose proof (shr_fexp_nonneg _ e' loc_Exact
                (round_nearest_even_nonneg _ (loc_of_shr_record mrs') H1)) as H2.
  destruct (shr_fexp prec emax _ e' loc_Exact) as [mrs'' e'']. cbn [fst] in H2.
  destruct (shr_m mrs'') as [|m|m]; [reflexivity | | lia].
  destruct (e'' <=? emax - prec); reflexivity.
Qed.

Lemma SFdiv_core_nonneg (mx my : positive) (ex ey : Z) :
  0 <= fst (fst (SFdiv_core_binary prec emax (Zpos mx) ex (Zpos my) ey)).
Proof.
  unfold SFdiv_core_binary.
  set (sh := ex - ey - _).
  set (m' := match sh with Z0 => Zpos mx | Zpos _ => Z.shiftl (Zpos mx) sh
                      | Zneg _ => 0 end).
  assert (0 <= m') as Hm'.
  { unfold m'. destruct sh; [lia | | lia]. apply Z.shiftl_nonneg. lia. }
  pose proof (Z.div_pos m' (Zpos my) Hm' ltac:(lia)) as Hq.
  unfold Z.div in Hq.
  destruct (Z.div_eucl m' (Zpos my)) as [q r]. exact Hq.
Qed.

(** The conversion of a small integer is exact: the mantissa is shifted up
    to 24 digits and nothing is rounded away. *)
Lemma digits2_pos_shift (p n : positive) :
  digits2_pos (Pos.iter xO p n) = (digits2_pos p + n)%positive.
Proof.
  induction n as [|n IH] using Pos.peano_ind.
  - cbn. now rewrite Pos.add_1_r.
  - rewrite Pos.iter_succ. cbn [digits2_pos].
    now rewrite IH, Pos.add_succ_r.
Qed.

Lemma digits2_pos_bound (p : positive) : forall n : Z,
  0 <= n -> Zpos p < 2 ^ n -> Zpos (digits2_pos p) <= n.
Proof.
  induction p as [p IH|p IH|]; intros n Hn Hp.
  - assert (n <> 0) by (intros ->; cbn in Hp; lia).
    replace n with (Z.succ (n - 1)) in Hp by lia.
    rewrite Z.pow_succ_r in Hp by lia.
    specialize (IH (n - 1) ltac:(lia) ltac:(lia)).
    cbn [digits2_pos]. lia.
  - assert (n <> 0) by (intros ->; cbn in Hp; lia).
    replace n with (Z.succ (n - 1)) in Hp by lia.
    rewrite Z.pow_succ_r in Hp by lia.
    specialize (IH (n - 1) ltac:(lia) ltac:(lia)).
    cbn [digits2_pos]. lia.
  - assert (n <> 0) by (intros ->; cbn in Hp; lia).
    cbn [digits2_pos]. lia.
Qed.

Lemma binary_round_aux_exact (sx : bool) (m : positive) (e : Z) :
  Zpos (digits2_pos m) = prec -> - 149 <= e <= 104 ->
  binary_round_aux prec emax sx (Zpos m) e loc_Exact = S754_finite sx m e.
Proof.
  intros Hd He.
  assert (shr_fexp prec emax (Zpos m) e loc_Exact
          = ({| shr_m := Zpos m; shr_r := false; shr_s := false |}, e)) as Hshr.
  { unfold shr_fexp, Zdigits2. rewrite Hd.
    unfold fexp, SpecFloat.emin, prec, emax.
    replace (Z.max (24 + e - 24) (3 - 128 - 24) - e) with 0 by lia.
    reflexivity. }
  unfold binary_round_aux. rewrite Hshr. cbn [shr_m loc_of_shr_record
    round_nearest_even]. rewrite Hshr. cbn [shr_m].
  unfold prec, emax. destruct (Z.leb_spec e (128 - 24)); [reflexivity | lia].
Qed.

(** [static_cast<float>] of an [int16_t] that is not negative is [+0.0f] or
    positive and finite. *)
Lemma of_int_int16_nonneg_finite (k : Z) :
  0 <= k < 2 ^ 15 -> nonneg_finite (of_int k) = true.
Proof.
  intros Hk. destruct k as [|p|p]; [reflexivity | | lia].
  pose proof (digits2_pos_bound p 15 ltac:(lia) ltac:(lia)) as Hd. clear Hk.
  unfold of_int, binary_normalize, binary_round, shl_align.
  rewrite Z.add_0_r.
  replace (fexp prec emax (Zpos (digits2_pos p)))
    with (Zpos (digits2_pos p) - 24)
    by (unfold fexp, SpecFloat.emin, prec, emax; lia).
  rewrite Z.sub_0_r.
  destruct (Zpos (digits2_pos p) - 24) as [|q|q] eqn:Hq; [lia | lia |].
  rewrite binary_round_aux_exact; [reflexivity | | lia].
  rewrite digits2_pos_shift. unfold prec. lia.
Qed.

(** Rounding absorbs a duration of 1 at the time 2^24: the sum is the time
    itself, and the test of that segment fails at its own start. *)
Example small_duration_absorbed :
  f_gt (of_int 1) (of_int 0) = true /\
  f_add (of_int (2 ^ 24)) (of_int 1) = of_int (2 ^ 24) /\
  f_gt (f_add (of_int (2 ^ 24)) (of_int 1)) (of_int (2 ^ 24)) = false.
Proof. repeat split; vm_compute; reflexivity. Qed.

(** ** binary32: times never decrease *)

Lemma fexp_eq (e : Z) : fexp prec emax e = Z.max (e - 24) (-149).
Proof. reflexivity. Qed.

(** The number of binary digits of a mantissa. *)
Lemma digits2_pos_spec (p : positive) :
  2 ^ (Zpos (digits2_pos p) - 1) <= Zpos p < 2 ^ Zpos (digits2_pos p).
Proof.
  induction p as [p IH|p IH|]; cbn [digits2_pos];
    rewrite ?Pos2Z.inj_succ.
  - replace (Z.succ (Zpos (digits2_pos p)) - 1)
      with (Z.succ (Zpos (digits2_pos p) - 1)) by lia.
    rewrite !Z.pow_succ_r by lia. lia.
  - replace (Z.succ (Zpos (digits2_pos p)) - 1)
      with (Z.succ (Zpos (digits2_pos p) - 1)) by lia.
    rewrite !Z.pow_succ_r by lia. lia.
  - cbn. lia.
Qed.

Lemma digits2_pos_unique (p : positive) (n : Z) :
  2 ^ (n - 1) <= Zpos p < 2 ^ n -> Zpos (digits2_pos p) = n.
Proof.
  intros [Hlo Hhi]. pose proof (digits2_pos_spec p) as [Hlo' Hhi'].
  destruct (Z.lt_trichotomy (Zpos (digits2_pos p)) n) as [H|[H|H]];
    [exfalso | exact H | exfalso].
  - pose proof (Z.pow_le_mono_r 2 (Zpos (digits2_pos p)) (n - 1)
                  ltac:(lia) ltac:(lia)). lia.
  - assert (0 <= n \/ n < 0) as [Hn|Hn] by lia.
    + pose proof (Z.pow_le_mono_r 2 n (Zpos (digits2_pos p) - 1)
                    ltac:(lia) ltac:(lia)). lia.
    + rewrite (Z.pow_neg_r 2 n) in Hhi by lia. lia.
Qed.

Lemma Zdigits2_unique (m n : Z) :
  2 ^ (n - 1) <= m < 2 ^ n -> 0 < m -> Zdigits2 m = n.
Proof.
  intros H Hm. destruct m as [|p|p]; [lia | | lia].
  now apply digits2_pos_unique.
Qed.

(** Shifting right halves the mantissa. *)
Lemma shr_1_m (mrs : shr_record) :
  0 <= shr_m mrs -> shr_m (shr_1 mrs) = shr_m mrs / 2.
Proof.
  destruct mrs as [[|[p|p|]|p] r s]; cbn [shr_m shr_1]; intros H;
    try lia; try reflexivity.
  - apply (Z.div_unique _ _ _ 1); lia.
  - apply (Z.div_unique _ _ _ 0); lia.
Qed.

Lemma pow2_xO (k : positive) : 2 ^ Zpos k~0 = 2 ^ Zpos k * 2 ^ Zpos k.
Proof.
  replace (Zpos k~0) with (Zpos k + Zpos k) by lia.
  apply Z.pow_add_r; lia.
Qed.

Lemma pow2_xI (k : positive) :
  2 ^ Zpos k~1 = 2 * (2 ^ Zpos k * 2 ^ Zpos k).
Proof.
  replace (Zpos k~1) with (Z.succ (Zpos k + Zpos k)) by lia.
  rewrite Z.pow_succ_r by lia. f_equal. apply Z.pow_add_r; lia.
Qed.

Lemma iter_shr_1_m (k : positive) : forall mrs,
  0 <= shr_m mrs ->
  shr_m (SpecFloat.iter_pos shr_1 k mrs) = shr_m mrs / 2 ^ Zpos k.
Proof.
  induction k as [k IH|k IH|]; intros mrs H; cbn [SpecFloat.iter_pos].
  - assert (0 <= shr_m (shr_1 mrs))
      by (rewrite shr_1_m by assumption; apply Z.div_pos; lia).
    assert (0 <= shr_m (SpecFloat.iter_pos shr_1 k (shr_1 mrs)))
      by (rewrite IH by assumption; apply Z.div_pos; lia).
    rewrite !IH, shr_1_m by assumption.
    rewrite !Z.div_div by lia.
    rewrite pow2_xI. f_equal.
  - assert (0 <= shr_m (SpecFloat.iter_pos shr_1 k mrs))
      by (rewrite IH by assumption; apply Z.div_pos; lia).
    rewrite !IH by assumption.
    rewrite !Z.div_div by lia.
    rewrite pow2_xO. reflexivity.
  - rewrite shr_1_m by assumption. reflexivity.
Qed.

Lemma shr_record_of_loc_m (m : Z) (l : location) :
  shr_m (shr_record_of_loc m l) = m.
Proof. now destruct l as [|[]]. Qed.

Lemma shr_fexp_spec (m e : Z) (l : location) :
  0 <= m ->
  exists mrs,
    shr_fexp prec emax m e l
    = (mrs, e + Z.max 0 (fexp prec emax (Zdigits2 m + e) - e)) /\
    shr_m mrs = m / 2 ^ Z.max 0 (fexp prec emax (Zdigits2 m + e) - e).
Proof.
  intros Hm. unfold shr_fexp, shr.
  destruct (fexp prec emax (Zdigits2 m + e) - e) as [|k|k] eqn:Hk.
  - eexists. split; [f_equal; lia |].
    rewrite shr_record_of_loc_m. cbn. now rewrite Z.div_1_r.
  - eexists. split; [f_equal; lia |].
    rewrite iter_shr_1_m by (rewrite shr_record_of_loc_m; lia).
    rewrite shr_record_of_loc_m. f_equal.
  - eexists. split; [f_equal; lia |].
    rewrite shr_record_of_loc_m. cbn. now rewrite Z.div_1_r.
Qed.

Lemma round_nearest_even_bounds (m : Z) (l : location) :
  m <= round_nearest_even m l <= m + 1.
Proof.
  destruct l as [|[]]; cbn; try lia. destruct (Z.even m); lia.
Qed.

(** Rounding a positive number [M * 2^ez] whose exponent is not below the
    least one gives the infinity or a number of the format: its exponent
    is at least the one the format gives to [M * 2^ez], and at that
    exponent its mantissa is at least the truncated one. *)
Lemma binary_round_aux_floor (sx : bool) (M : positive) (ez : Z)
    (l : location) :
  - 149 <= ez ->
  let e1 := fexp prec emax (Zpos (digits2_pos M) + ez) in
  ez <= e1 ->
  binary_round_aux prec emax sx (Zpos M) ez l = S754_infinity sx \/
  exists m e,
    binary_round_aux prec emax sx (Zpos M) ez l = S754_finite sx m e /\
    bounded prec emax m e = true /\
    e1 <= e /\
    (e = e1 -> Zpos M / 2 ^ (e1 - ez) <= Zpos m).
Proof.
  intros Hez e1 He1.
  pose proof (digits2_pos_spec M) as HM.
  set (dM := Zpos (digits2_pos M)) in *.
  assert (0 < dM) as HdM by (unfold dM; lia).
  unfold binary_round_aux.
  destruct (shr_fexp_spec (Zpos M) ez l ltac:(lia)) as [mrs' [-> Hm']].
  cbn [Zdigits2] in Hm' |- *. fold dM in Hm' |- *. fold e1 in Hm' |- *.
  replace (Z.max 0 (e1 - ez)) with (e1 - ez) in * by lia.
  replace (ez + (e1 - ez)) with e1 by lia.
  set (m' := shr_m mrs') in *.
  (* the truncated mantissa is canonical at e1 *)
  assert (exists D', 0 < D' <= 24 /\ 2 ^ (D' - 1) <= m' < 2 ^ D' /\
                     fexp prec emax (D' + e1) = e1 /\
                     (D' < 24 -> e1 = -149)) as (D' & HD' & Hm'D & Hcan & Hsub).
  { unfold e1 in *. rewrite fexp_eq in *.
    destruct (Z.le_gt_cases (-149) (dM + ez - 24)) as [Hn|Hs].
    - exists 24. rewrite fexp_eq.
      replace (Z.max (dM + ez - 24) (-149)) with (dM + ez - 24) in * by lia.
      replace (dM + ez - 24 - ez) with (dM - 24) in * by lia.
      assert (0 <= dM - 24) by lia.
      assert (0 < 2 ^ (dM - 24)) by (apply Z.pow_pos_nonneg; lia).
      split; [lia |]. split; [| split; [lia | lia]].
      rewrite Hm'. split.
      + apply Z.div_le_lower_bound; [lia |].
        replace (2 ^ (dM - 24) * 2 ^ (24 - 1)) with (2 ^ (dM - 1)); [lia |].
        rewrite <- Z.pow_add_r by lia. f_equal. lia.
      + apply Z.div_lt_upper_bound; [lia |].
        replace (2 ^ (dM - 24) * 2 ^ 24) with (2 ^ dM); [lia |].
        rewrite <- Z.pow_add_r by lia. f_equal. lia.
    - replace (Z.max (dM + ez - 24) (-149)) with (-149) in * by lia.
      assert (ez = -149) as -> by lia.
      replace (-149 - -149) with 0 in Hm' by lia.
      rewrite Z.pow_0_r, Z.div_1_r in Hm'.
      exists dM. rewrite fexp_eq. rewrite Hm'.
      split; [lia |]. split; [exact HM |]. split; lia. }
  pose proof (round_nearest_even_bounds m' (loc_of_shr_record mrs')) as Hm1.
  set (m1 := round_nearest_even m' (loc_of_shr_record mrs')) in *.
  assert (0 < 2 ^ (D' - 1)) as Hpow by (apply Z.pow_pos_nonneg; lia).
  destruct (shr_fexp_spec m1 e1 loc_Exact ltac:(lia)) as [mrs'' [-> Hm2]].
  assert (2 ^ D' = 2 * 2 ^ (D' - 1)) as HpowS.
  { replace D' with (Z.succ (D' - 1)) at 1 by lia.
    apply Z.pow_succ_r. lia. }
  destruct (Z.lt_ge_cases m1 (2 ^ D')) as [Hlt|Hge].
  - (* no carry *)
    assert (Zdigits2 m1 = D') as Hd1
      by (apply Zdigits2_unique; lia).
    rewrite Hd1, Hcan in *. replace (e1 - e1) with 0 in * by lia.
    change (Z.max 0 0) with 0 in *. rewrite Z.pow_0_r, Z.div_1_r in Hm2.
    rewrite Z.add_0_r. rewrite Hm2.
    destruct m1 as [|q|q] eqn:Eq1; [lia | | lia].
    destruct (Z.leb_spec e1 (emax - prec)) as [Hb|Hb]; [right | now left].
    exists q, e1. split; [reflexivity |].
    split; [| split; [lia | intros _; lia]].
    unfold bounded, canonical_mantissa.
    cbn [Zdigits2] in Hd1. rewrite Hd1, Hcan, Z.eqb_refl.
    cbn [andb]. now apply Z.leb_le.
  - (* the mantissa was rounded up to a power of two *)
    assert (m1 = 2 ^ D') as Em1 by lia.
    assert (Zdigits2 m1 = D' + 1) as Hd1.
    { apply Zdigits2_unique; [| lia].
      replace (D' + 1 - 1) with D' by lia.
      rewrite Z.pow_add_r, Z.pow_1_r by lia. lia. }
    rewrite Hd1 in *.
    destruct (Z.eq_dec D' 24) as [->|HD24].
    + (* normal: one more shift *)
      assert (fexp prec emax (24 + 1 + e1) = e1 + 1) as Hf.
      { rewrite fexp_eq in *. lia. }
      rewrite Hf in *. replace (e1 + 1 - e1) with 1 in * by lia.
      change (Z.max 0 1) with 1 in *.
      rewrite Em1 in Hm2. change (2 ^ 24 / 2 ^ 1) with (2 ^ 23) in Hm2.
      rewrite Hm2. change (2 ^ 23) with (Zpos (2 ^ 23)).
      destruct (Z.leb_spec (e1 + 1) (emax - prec)) as [Hb|Hb];
        [right | now left].
      exists (2 ^ 23)%positive, (e1 + 1). split; [reflexivity |].
      split; [| split; [lia | intros; lia]].
      unfold bounded, canonical_mantissa.
      change (Zpos (digits2_pos (2 ^ 23))) with 24.
      rewrite fexp_eq in *.
      replace (Z.max (24 + (e1 + 1) - 24) (-149)) with (e1 + 1) by lia.
      rewrite Z.eqb_refl. cbn [andb]. now apply Z.leb_le.
    + (* subnormal: the mantissa still fits *)
      assert (e1 = -149) as He by (apply Hsub; lia).
      assert (fexp prec emax (D' + 1 + e1) = e1) as Hf.
      { rewrite fexp_eq. lia. }
      rewrite Hf in *. replace (e1 - e1) with 0 in * by lia.
      change (Z.max 0 0) with 0 in *. rewrite Z.pow_0_r, Z.div_1_r in Hm2.
      rewrite Z.add_0_r. rewrite Hm2.
      destruct m1 as [|q|q] eqn:Eq1; [lia | | lia].
      destruct (Z.leb_spec e1 (emax - prec)) as [Hb|Hb]; [right | now left].
      exists q, e1. split; [reflexivity |].
      split; [| split; [lia | intros _; lia]].
      unfold bounded, canonical_mantissa.
      cbn [Zdigits2] in Hd1. rewrite Hd1, Hf, Z.eqb_refl.
      cbn [andb]. now apply Z.leb_le.
Qed.

Lemma shl_align_value (m : positive) (e e' : Z) :
  e' <= e -> Zpos (fst (shl_align m e e')) = Zpos m * 2 ^ (e - e').
Proof.
  intros He. unfold shl_align.
  destruct (e' - e) as [|q|q] eqn:Hq; cbn [fst]; try lia.
  - replace (e - e') with 0 by lia. lia.
  - replace (e - e') with (Zpos q) by lia.
    change (Pos.iter xO m q) with (shift_pos q m).
    rewrite shift_pos_correct.
    change (Zpower_pos 2 q) with (2 ^ Zpos q). lia.
Qed.

Lemma bounded_canonical (m : positive) (e : Z) :
  bounded prec emax m e = true ->
  fexp prec emax (Zpos (digits2_pos m) + e) = e /\ e <= 104 /\ -149 <= e.
Proof.
  unfold bounded, canonical_mantissa. intros H.
  apply andb_true_iff in H as [Hc Hb].
  apply Z.eqb_eq in Hc. apply Z.leb_le in Hb.
  split; [exact Hc |]. split; [exact Hb |].
  rewrite fexp_eq in Hc. lia.
Qed.

(** The sum of two positive numbers of the format is not below the first:
    rounding to nearest never passes a number of the format. *)
Lemma SFadd_finite_ge (mx md : positive) (ex ed : Z) :
  bounded prec emax mx ex = true -> bounded prec emax md ed = true ->
  time_ok (SFadd prec emax (S754_finite false mx ex)
                 (S754_finite false md ed)) = true /\
  gt (S754_finite false mx ex)
     (SFadd prec emax (S754_finite false mx ex) (S754_finite false md ed))
  = false.
Proof.
  intros Hx Hd.
  apply bounded_canonical in Hx as (Hcx & Hbx & Hlx).
  apply bounded_canonical in Hd as (Hcd & Hbd & Hld).
  cbn [SFadd cond_Zopp]. set (ez := Z.min ex ed).
  assert (ez <= ex) as Hzx by (unfold ez; lia).
  assert (ez <= ed) as Hzd by (unfold ez; lia).
  assert (-149 <= ez) as Hz by (unfold ez; lia).
  pose proof (shl_align_value mx ex ez Hzx) as HMx.
  set (Mx := fst (shl_align mx ex ez)) in *.
  set (Md := fst (shl_align md ed ez)) in *.
  change (Zpos Mx + Zpos Md) with (Zpos (Mx + Md)).
  cbn [binary_normalize]. unfold binary_round.
  set (M := (Mx + Md)%positive).
  assert (Zpos mx * 2 ^ (ex - ez) <= Zpos M) as HM by (unfold M; lia).
  pose proof (digits2_pos_spec M) as HdM.
  pose proof (digits2_pos_spec mx) as Hdmx.
  assert (0 < 2 ^ (ex - ez)) as Hp by (apply Z.pow_pos_nonneg; lia).
  assert (Zpos (digits2_pos mx) + ex <= Zpos (digits2_pos M) + ez) as Hdig.
  { assert (2 ^ (Zpos (digits2_pos mx) - 1 + (ex - ez))
            < 2 ^ Zpos (digits2_pos M)) as Hlt.
    { rewrite Z.pow_add_r by lia. nia. }
    apply Z.pow_lt_mono_r_iff in Hlt; lia. }
  set (e1 := fexp prec emax (Zpos (digits2_pos M) + ez)).
  assert (ex <= e1) as He1.
  { unfold e1. rewrite fexp_eq in *. lia. }
  assert (shl_align M ez e1 = (M, ez)) as ->.
  { unfold shl_align. destruct (e1 - ez) eqn:E; try reflexivity. lia. }
  destruct (binary_round_aux_floor false M ez loc_Exact Hz ltac:(fold e1; lia))
    as [-> | (m & e & -> & Hb & Hle & Hm)]; [split; reflexivity |].
  fold e1 in Hle, Hm.
  split.
  - unfold time_ok, duration_ok. cbn [valid_binary].
    now rewrite Hb.
  - unfold gt. cbn [SFcompare].
    destruct (Z.compare_spec ex e) as [Heq|Hlt|Hgt]; [| reflexivity | lia].
    assert (e = e1) as E by lia. specialize (Hm E).
    assert (Zpos mx <= Zpos m) as Hmm.
    { etrans; [| exact Hm].
      replace (e1 - ez) with (ex - ez) by lia.
      apply Z.div_le_lower_bound; lia. }
    change (Pos.compare_cont Eq mx m) with (Pos.compare mx m).
    destruct (Pos.compare_spec mx m); try reflexivity. lia.
Qed.

Lemma gt_refl (x : spec_float) : gt x x = false.
Proof.
  unfold gt. destruct x as [[]|[]| |[] m e]; cbn [SFcompare];
    try reflexivity;
    change (Pos.compare_cont Eq m m) with (Pos.compare m m);
    now rewrite Z.compare_refl, Pos.compare_refl.
Qed.

(** Adding a duration that is not below zero to a time gives a time that
    is not below it. *)
Lemma SFadd_time (x d : spec_float) :
  time_ok x = true -> duration_ok d = true ->
  time_ok (SFadd prec emax x d) = true /\ gt x (SFadd prec emax x d) = false.
Proof.
  unfold time_ok, duration_ok.
  destruct x as [[]|[]| |[] mx ex], d as [[]|[]| |[] md ed];
    cbn [valid_binary andb]; try discriminate;
    intros Hx Hd;
    try rewrite andb_false_r in Hx; try rewrite andb_false_r in Hd;
    try rewrite !andb_true_r in Hx; try rewrite !andb_true_r in Hd;
    try discriminate Hx; try discriminate Hd;
    try (split; [cbn; try rewrite Hx; try rewrite Hd; reflexivity
                | cbn [SFadd]; apply gt_refl || reflexivity]).
  apply (SFadd_finite_ge mx md ex ed Hx Hd).
Qed.

(** The order of the comparison is transitive. *)
Lemma gt_le_trans (x y t : spec_float) :
  y <> S754_nan ->
  gt x y = false -> gt y t = false -> gt x t = false.
Proof.
  intros Hy. unfold gt.
  destruct x as [sx|sx| |sx mx ex], y as [sy|sy| |sy my ey],
           t as [st|st| |st mt et]; try congruence;
    cbn [SFcompare]; try reflexivity;
    try (destruct sx; try reflexivity; try discriminate);
    try (destruct sy; try reflexivity; try discriminate);
    try (destruct st; try reflexivity; try discriminate);
    change (Pos.compare_cont Eq ?a ?b) with (Pos.compare a b);
    destruct (Z.compare_spec ex ey), (Z.compare_spec ey et),
             (Z.compare_spec ex et); try reflexivity; try discriminate;
      try lia; subst;
    destruct (Pos.compare_spec mx my), (Pos.compare_spec my mt),
             (Pos.compare_spec mx mt); cbn; try reflexivity;
      try discriminate; try lia.
Qed.

Lemma gt_antisym (x y : spec_float) :
  time_ok x = true -> time_ok y = true ->
  gt x y = false -> gt y x = false -> x = y.
Proof.
  unfold time_ok, duration_ok, gt.
  destruct x as [[]|[]| |[] mx ex], y as [[]|[]| |[] my ey];
    cbn [valid_binary andb SFcompare];
    intros Hx Hy Hxy Hyx;
    try rewrite andb_false_r in Hx; try rewrite andb_false_r in Hy;
    try discriminate; try reflexivity.
  change (Pos.compare_cont Eq ?a ?b) with (Pos.compare a b) in *.
  destruct (Z.compare_spec ex ey), (Z.compare_spec ey ex);
    try discriminate; try lia.
  destruct (Pos.compare_spec mx my), (Pos.compare_spec my mx);
    try discriminate; try lia. congruence.
Qed.

Lemma time_ok_not_nan (x : spec_float) : time_ok x = true -> x <> S754_nan.
Proof. intros H ->. discriminate H. Qed.

(** At a time that a duration takes further, the parameter of the start of
    the segment is [+0.0f]: the time is finite, so [x - x] is zero, and the
    duration is neither zero nor NaN. *)
Lemma start_parameter (x d : spec_float) :
  time_ok x = true -> duration_ok d = true ->
  gt (SFadd prec emax x d) x = true ->
  SFdiv prec emax (SFsub prec emax x x) d = of_int 0.
Proof.
  unfold time_ok, duration_ok.
  destruct x as [[]|[]| |[] mx ex], d as [[]|[]| |[] md ed];
    cbn [valid_binary andb]; intros Hx Hd;
    try rewrite andb_false_r in Hx; try rewrite andb_false_r in Hd;
    try discriminate Hx; try discriminate Hd;
    cbn [SFadd]; intros Hgt;
    try (rewrite gt_refl in Hgt; discriminate Hgt);
    try discriminate Hgt;
    cbn [SFsub cond_Zopp]; rewrite ?Z.sub_diag; reflexivity.
Qed.

(** [static_cast<float>] of an [int16_t] that is not negative is a
    duration not below zero. *)
Lemma of_int_duration_ok (k : Z) :
  0 <= k < 2 ^ 15 -> duration_ok (of_int k) = true.
Proof.
  intros Hk. destruct k as [|p|p]; [reflexivity | | lia].
  pose proof (digits2_pos_bound p 15 ltac:(lia) ltac:(lia)) as Hd. clear Hk.
  unfold of_int, binary_normalize, binary_round, shl_align.
  rewrite Z.add_0_r.
  replace (fexp prec emax (Zpos (digits2_pos p)))
    with (Zpos (digits2_pos p) - 24)
    by (unfold fexp, SpecFloat.emin, prec, emax; lia).
  rewrite Z.sub_0_r.
  destruct (Zpos (digits2_pos p) - 24) as [|q|q] eqn:Hq; [lia | lia |].
  rewrite binary_round_aux_exact;
    [| rewrite digits2_pos_shift; unfold prec; lia | lia].
  unfold duration_ok, valid_binary, bounded, canonical_mantissa.
  rewrite digits2_pos_shift, fexp_eq.
  replace (Z.max (Zpos (digits2_pos p + q) + Zneg q - 24) (-149))
    with (Zneg q) by lia.
  rewrite Z.eqb_refl. cbn [andb].
  apply andb_true_iff. split; [apply Z.leb_le; unfold emax, prec; lia |].
  reflexivity.
Qed.

Section Times.
Context {V : VecOps ops}.

Lemma ticks_durations_ok (s : Spline) (ds : list Z) :
  getTimestamp <$> m_points s = f_of_int <$> ds ->
  Forall (fun d => 0 <= d < 2 ^ 15) ds ->
  durations_ok s = true.
Proof.
  intros Hts Hds. unfold durations_ok. rewrite Hts.
  apply forallb_forall. intros x Hx.
  apply list_elem_of_In, list_elem_of_fmap_1 in Hx as (d & -> & Hd).
  rewrite Forall_forall in Hds. apply of_int_duration_ok. now apply Hds.
Qed.

Lemma durations_ok_lookup (s : Spline) (i : nat) (q : SplinePoint) :
  durations_ok s = true -> m_points s !! i = Some q ->
  duration_ok (getTimestamp q) = true.
Proof.
  unfold durations_ok. intros Hall Hq.
  rewrite forallb_forall in Hall. apply Hall.
  apply list_elem_of_In, list_elem_of_fmap_2.
  now apply list_elem_of_lookup_2 with i.
Qed.

Lemma time_before_beyond (s : Spline) (i : nat) :
  m_points s !! i = None -> time_before s (S i) = time_before s i.
Proof.
  intros Hi. apply lookup_ge_None in Hi. unfold time_before.
  now rewrite !take_ge by lia.
Qed.

(** The accumulated time is a time, and it never decreases. *)
Lemma time_before_ok (s : Spline) :
  durations_ok s = true -> forall i, time_ok (time_before s i) = true.
Proof.
  intros Hall. induction i as [|i IH]; [reflexivity |].
  destruct (m_points s !! i) as [q|] eqn:Hq.
  - rewrite (time_before_S _ _ _ Hq).
    apply SFadd_time; [exact IH |].
    now apply (durations_ok_lookup s i).
  - now rewrite time_before_beyond.
Qed.

Lemma time_before_step (s : Spline) (i : nat) :
  durations_ok s = true ->
  gt (time_before s i) (time_before s (S i)) = false.
Proof.
  intros Hall. destruct (m_points s !! i) as [q|] eqn:Hq.
  - rewrite (time_before_S _ _ _ Hq).
    apply SFadd_time; [now apply time_before_ok |].
    now apply (durations_ok_lookup s i).
  - rewrite time_before_beyond by assumption. apply gt_refl.
Qed.

Lemma time_before_mono (s : Spline) (i j : nat) :
  durations_ok s = true -> (i <= j)%nat ->
  gt (time_before s i) (time_before s j) = false.
Proof.
  intros Hall Hij. induction Hij as [|j Hij IH]; [apply gt_refl |].
  apply (gt_le_trans _ (time_before s j)); [| exact IH |].
  - now apply time_ok_not_nan, time_before_ok.
  - now apply time_before_step.
Qed.

(** C1, as the code has it. The loop of [resolvePosition] tests every point,
    the last one included.  On a sequence whose durations are binary32
    numbers not below zero (zeros, positive numbers, the positive infinity;
    not NaN), as are the durations converted from ticks of [int16_t] that
    are not negative, the accumulated time never decreases, so for every
    timestamp that the sum of the durations of all points does not exceed,
    no test succeeds and the anchor of the last point is returned. *)
Theorem resolvePosition_terminal use_ld (s : Spline) (lst : SplinePoint)
    (stamp : spec_float) :
  last (m_points s) = Some lst ->
  durations_ok s = true \/
  (exists ds : list Z,
     getTimestamp <$> m_points s = f_of_int <$> ds /\
     Forall (fun d => 0 <= d < 2 ^ 15) ds) ->
  f_gt (total_duration s) stamp = false ->
  resolvePosition use_ld s stamp = Ok (getPoint lst).
Proof.
  intros Hlast Hdur Htotal.
  assert (durations_ok s = true) as Hall.
  { destruct Hdur as [H | (ds & Hts & Hds)]; [exact H |].
    now apply (ticks_durations_ok s ds). }
  apply resolvePosition_past_end; [exact Hlast |].
  intros i. unfold segment_test.
  destruct (m_points s !! i) as [q|] eqn:Hq; [| reflexivity].
  rewrite <- (time_before_S _ _ _ Hq).
  pose proof (lookup_lt_Some _ _ _ Hq) as Hi.
  cbn [float f_gt ops] in *.
  apply (gt_le_trans _ (total_duration s)); [| | exact Htotal].
  - now apply time_ok_not_nan, time_before_ok.
  - apply time_before_mono; [exact Hall | lia].
Qed.

(** C3, as the code has it. On a non-empty sequence and for a timestamp
    below the sum of all durations, [resolvePosition] stops at the first
    index [i] whose accumulated time plus duration exceeds the timestamp
    and returns [splineInterpolateBezier] when [m_mode] is set and
    [splineInterpolateWeighted] otherwise, at base index [i] and parameter
    [(stamp - time_before i) / duration i].  When the durations are
    binary32 numbers not below zero, a timestamp equal to the time where
    segment [k] starts selects the first segment from [k] on whose
    duration takes the time further, a segment that starts at that very
    time, with parameter [0.0f]; it is segment [k] itself exactly when the
    rounded sum of that time and the duration of [k] exceeds the time. *)
Theorem resolvePosition_selects use_ld (s : Spline) (stamp : spec_float) :
  m_points s <> [] ->
  (f_gt (total_duration s) stamp = true ->
   exists (i : nat) (p : SplinePoint),
     m_points s !! i = Some p /\
     (forall j, (j < i)%nat -> segment_test s j stamp = false) /\
     segment_test s i stamp = true /\
     resolvePosition use_ld s stamp
     = (if m_mode s
        then splineInterpolateBezier s (Z.of_nat i)
               (f_div (f_sub stamp (time_before s i)) (getTimestamp p))
        else splineInterpolateWeighted s (Z.of_nat i)
               (f_div (f_sub stamp (time_before s i)) (getTimestamp p)))) /\
  (durations_ok s = true ->
   forall (k : nat) (pk : SplinePoint),
     m_points s !! k = Some pk ->
     f_gt (total_duration s) (time_before s k) = true ->
     exists (i : nat) (p : SplinePoint),
       (k <= i)%nat /\ m_points s !! i = Some p /\
       time_before s i = time_before s k /\
       (forall j, (k <= j < i)%nat -> segment_test s j (time_before s j) = false) /\
       segment_test s i (time_before s i) = true /\
       resolvePosition use_ld s (time_before s k)
       = (if m_mode s
          then splineInterpolateBezier s (Z.of_nat i) (f_of_int 0)
          else splineInterpolateWeighted s (Z.of_nat i) (f_of_int 0)) /\
       (i = k <-> segment_test s k (time_before s k) = true)).
Proof.
  intros Hne. split.
  - intros Hbelow.
    destruct (resolvePosition_first_success use_ld s stamp Hne Hbelow)
      as (i & p & Hp & Hmin & Htest & Hres).
    exists i, p. rewrite Hres, blend_dispatch. auto.
  - intros Hall k pk Hpk Hbelow.
    set (stamp_k := time_before s k) in *.
    destruct (resolvePosition_first_success use_ld s stamp_k Hne Hbelow)
      as (i & p & Hp & Hmin & Htest & Hres).
    cbn [float f_gt f_add f_sub f_div f_of_int ops] in *.
    (* the tests before k fail at the start of k *)
    assert (forall j, (j < k)%nat -> segment_test s j stamp_k = false)
      as Hearly.
    { intros j Hj.
      destruct (lookup_lt_is_Some_2 (m_points s) j) as [q Hq];
        [apply lookup_lt_Some in Hpk; lia |].
      rewrite (segment_test_lookup _ _ _ _ Hq), <- (time_before_S _ _ _ Hq).
      apply time_before_mono; [exact Hall | lia]. }
    assert (k <= i)%nat as Hki.
    { destruct (Nat.le_gt_cases k i) as [|Hlt]; [assumption |].
      rewrite (Hearly i Hlt) in Htest. discriminate. }
    (* the times from k to i are the time of k *)
    assert (forall j, (k <= j <= i)%nat -> time_before s j = stamp_k)
      as Hflat.
    { intros j Hj. apply gt_antisym; try now apply time_before_ok.
      - destruct (Nat.eq_dec j k) as [->|Hjk]; [apply gt_refl |].
        destruct (lookup_lt_is_Some_2 (m_points s) (pred j)) as [q Hq];
          [apply lookup_lt_Some in Hp; lia |].
        pose proof (Hmin (pred j) ltac:(lia)) as Hprev.
        rewrite (segment_test_lookup _ _ _ _ Hq), <- (time_before_S _ _ _ Hq)
          in Hprev.
        now replace (S (pred j)) with j in Hprev by lia.
      - apply time_before_mono; [exact Hall | lia]. }
    pose proof (Hflat i ltac:(lia)) as Heq.
    exists i, p. split; [exact Hki |]. split; [exact Hp |].
    split; [exact Heq |]. split; [| split; [| split]].
    + intros j Hj. rewrite (Hflat j) by lia. apply Hmin. lia.
    + now rewrite Heq.
    + rewrite Hres, blend_dispatch, <- Heq.
      rewrite (segment_test_lookup _ _ _ _ Hp), <- Heq in Htest.
      cbn [float f_gt f_add f_sub f_div f_of_int ops] in *.
      rewrite (start_parameter (time_before s i) (getTimestamp p));
        [reflexivity | now apply time_before_ok | | exact Htest].
      now apply (durations_ok_lookup s i).
    + split; [intros ->; exact Htest |].
      intros Hk. destruct (Nat.eq_dec i k) as [|Hik]; [assumption |].
      rewrite (Hmin k) in Hk by lia. discriminate.
Qed.

End Times.

(** ** binary32: timestamps below zero *)

Lemma negative_cases (stamp : spec_float) :
  gt (of_int 0) stamp = true ->
  stamp = S754_infinity true \/ exists m e, stamp = S754_finite true m e.
Proof.
  destruct stamp as [[]|[]| |[] m e]; cbn; try discriminate; eauto.
Qed.

Lemma nonneg_finite_cases (d : spec_float) :
  nonneg_finite d = true ->
  d = S754_zero false \/ exists m e, d = S754_finite false m e.
Proof.
  destruct d as [[]|[]| |[] m e]; cbn; try discriminate; eauto.
Qed.

Lemma sign_bit_set (q : spec_float) :
  sign_bit q = Some true ->
  gt (of_int 0) q = true \/ q = S754_zero true.
Proof.
  destruct q as [[]|[]| |[] m e]; cbn; intros H; try discriminate H; auto.
Qed.

(** C10, as the code has it. In binary32, on a sequence whose first
    duration is [+0.0f] or positive and finite, a timestamp below zero
    passes the test of index 0: [resolvePosition] returns
    [splineInterpolateBezier] when [m_mode] is set and
    [splineInterpolateWeighted] otherwise, at base index 0 and parameter
    [stamp / duration 0].  That parameter has its sign bit set: it is
    below zero (the negative infinity when the duration is zero) or, when
    the quotient underflows, it is [-0.0f], which is not below zero. *)
Theorem resolvePosition_negative_stamp {V : VecOps ops} use_ld
    (s : Spline) (p0 : SplinePoint) (rest : list SplinePoint)
    (stamp : spec_float) :
  m_points s = p0 :: rest ->
  f_gt (f_of_int 0) stamp = true ->
  nonneg_finite (getTimestamp p0) = true ->
  resolvePosition use_ld s stamp
  = (if m_mode s
     then splineInterpolateBezier s 0 (f_div stamp (getTimestamp p0))
     else splineInterpolateWeighted s 0 (f_div stamp (getTimestamp p0))) /\
  sign_bit (f_div stamp (getTimestamp p0)) = Some true /\
  (f_gt (f_of_int 0) (f_div stamp (getTimestamp p0)) = true \/
   f_div stamp (getTimestamp p0) = S754_zero true).
Proof.
  intros Hpts Hneg Hdur.
  cbn [float f_gt f_of_int f_div ops] in *.
  apply negative_cases in Hneg. apply nonneg_finite_cases in Hdur.
  assert (sign_bit (SFdiv prec emax stamp (getTimestamp p0)) = Some true)
    as Hsign.
  { destruct Hneg as [->|[m [e ->]]], Hdur as [->|[md [ed ->]]];
      try reflexivity.
    cbn [SFdiv].
    pose proof (SFdiv_core_nonneg m md e ed) as Hq.
    destruct (SFdiv_core_binary prec emax (Z.pos m) e (Z.pos md) ed)
      as [[mz ez] lz].
    cbn [fst] in Hq. now apply binary_round_aux_sign. }
  split; [| split; [exact Hsign | now apply sign_bit_set]].
  rewrite <- blend_dispatch.
  unfold resolvePosition. rewrite Hpts.
  rewrite bool_decide_eq_false_2 by discriminate.
  rewrite andb_false_r. cbn [resolve_loop]. fold (blend s).
  cbn [float f_gt f_of_int f_div f_add f_sub ops].
  destruct Hneg as [->|[m [e ->]]], Hdur as [->|[md [ed ->]]];
    reflexivity.
Qed.

End Binary32Facts.

(** ** binary32: the scenario of the specification *)

Module Binary32Examples.
Import Binary32 Scenario.

(** The stream [0,0,0,10, 100,0,0,10, 0,0,0,0] in WEIGHTED mode: the cursor
    ends 12 units on; the timestamp 10, the boundary between the two
    segments, is blended at base index 1 with parameter 0; the timestamp 25
    gives the last anchor. *)
Example two_points_scenario :
  forall mixf, mixf = Vec32.mix_lerp \/ mixf = Vec32.mix_blend ->
  let V := Vec32.vec mixf in
  let s := curve32 mixf WEIGHTED two_points in
  match readData true two_points 0 (Spline_new WEIGHTED) with
  | Done cursor s' => cursor = 12 /\ length (m_points s') = 2%nat
  | _ => False
  end /\
  resolvePosition false s (of_int 10)
  = splineInterpolateWeighted s 1 (of_int 0) /\
  resolvePosition false s (of_int 25)
  = Ok (Vec32.V3 (of_int 100) (of_int 0) (of_int 0)).
Proof.
  intros mixf [-> | ->]; cbv zeta;
    (split; [vm_compute; split; reflexivity |]);
    split; vm_compute; reflexivity.
Qed.

(** On the decoded curve of [four_points] the Bezier blend meets the
    anchors at both ends of every segment, for either formula of [mix]. *)
Example four_points_bezier_endpoints :
  forall mixf, mixf = Vec32.mix_lerp \/ mixf = Vec32.mix_blend ->
  let V := Vec32.vec mixf in
  let s := curve32 mixf BEZIER four_points in
  forall i, i = 0 \/ i = 1 \/ i = 2 ->
  Some (splineInterpolateBezier s i (of_int 0))
  = (fun p => Ok (getPoint p)) <$> m_points s !! Z.to_nat i /\
  Some (splineInterpolateBezier s i (of_int 1))
  = (fun p => Ok (getPoint p)) <$> m_points s !! Z.to_nat (i + 1).
Proof.
  intros mixf [-> | ->]; cbv zeta; intros i [-> | [-> | ->]];
    split; vm_compute; reflexivity.
Qed.

End Binary32Examples.

(** ** Where the code departs from the specification *)

Module Counterexamples.
Import Binary32 Scenario.

(** C1 as specified fails. The curve of [two_points] has one segment
    between its points, so the sum of the durations without the last one is
    10; at the timestamp 15, which is above it, [resolvePosition] does not
    return the last anchor (100, 0, 0) but a blend at base index 1, in
    either mode and for either formula of [mix]. *)
Lemma terminal_clamp_without_last_fails :
  let stamp : spec_float := of_int 15 in
  let lst := {| Vec32.vx := of_int 100; Vec32.vy := of_int 0;
                Vec32.vz := of_int 0 |} in
  (forall mixf mode,
     getPoint <$> last (m_points (curve32 mixf mode two_points)) = Some lst /\
     duration_without_last (curve32 mixf mode two_points) = of_int 10) /\
  SFleb (of_int 10) stamp = true /\
  resolvePosition false (curve32 Vec32.mix_lerp WEIGHTED two_points) stamp
    <> Ok lst /\
  resolvePosition false (curve32 Vec32.mix_blend WEIGHTED two_points) stamp
    <> Ok lst /\
  resolvePosition false (curve32 Vec32.mix_lerp BEZIER two_points) stamp
    <> Ok lst /\
  resolvePosition false (curve32 Vec32.mix_blend BEZIER two_points) stamp
    <> Ok lst.
Proof.
  cbv zeta. split; [| split; [reflexivity |]].
  - intros mixf mode. destruct mode; split; vm_compute; reflexivity.
  - repeat split; intros H; vm_compute in H; discriminate H.
Qed.

(** C2 as specified fails in a validating build: the group (1, 1, 1, -1) is
    not the all-zero group, and [readData] throws on it instead of
    appending a point and returning a cursor. *)
Lemma readData_negative_duration_throws :
  Forall is_int16 negative_duration /\
  negative_duration = encode_groups [(1, 1, 1, -1)] ++ [0; 0; 0; 0] /\
  (1, 1, 1, -1) <> (0, 0, 0, 0) /\
  @readData ops (Vec32.vec Vec32.mix_lerp) true negative_duration 0
            (Spline_new WEIGHTED)
  = Thrown (InvalidTimestamp (-1)) (Spline_new WEIGHTED).
Proof.
  repeat split; try discriminate; try reflexivity.
  repeat constructor; unfold is_int16; lia.
Qed.

(** C5 as specified fails at parameter 0. On [three_points] and base index
    1 the anchors at 0, 1 and 2 are A = (0,0,0), B = (3,0,0), C = (9,0,0): the
    blend is a third of A + B + C, not (A + 2B + C) / 3, for either formula
    of [mix]. *)
Lemma weighted_start_is_not_as_specified :
  let a := Vec32.V3 (of_int 0) (of_int 0) (of_int 0) in
  let b := Vec32.V3 (of_int 3) (of_int 0) (of_int 0) in
  let c := Vec32.V3 (of_int 9) (of_int 0) (of_int 0) in
  (forall mixf,
     getPoint <$> m_points (curve32 mixf WEIGHTED three_points)
     = [a; b; c]) /\
  (forall mixf,
     mixf = Vec32.mix_lerp \/ mixf = Vec32.mix_blend ->
     let V := Vec32.vec mixf in
     splineInterpolateWeighted (curve32 mixf WEIGHTED three_points) 1 (of_int 0)
     = Ok (v_scale (v_add (v_add a b) c) (f_div (of_int 1) (of_int 3))) /\
     splineInterpolateWeighted (curve32 mixf WEIGHTED three_points) 1 (of_int 0)
     <> Ok (weighted_start_as_specified a b c)).
Proof.
  cbv zeta. split.
  - intros mixf. vm_compute. reflexivity.
  - intros mixf [-> | ->]; (split; [vm_compute; reflexivity |]);
      intros H; vm_compute in H; discriminate H.
Qed.

(** C3 as specified fails at a boundary. The curve of [long_stream] has 515
    points; segment 513 starts at 2^24 ticks and lasts 1 tick.  In binary32
    the sum 2^24 + 1 is rounded to 2^24, so at the timestamp 2^24, which is
    below the sum of all durations, the test of segment 513 fails:
    [resolvePosition] returns the blend at base index 514, not the blend
    at base index 513 with parameter 0. *)
Lemma boundary_duration_absorbed :
  let V := Vec32.vec Vec32.mix_lerp in
  let s := curve32 Vec32.mix_lerp WEIGHTED long_stream in
  let stamp : spec_float := of_int (2 ^ 24) in
  forallb (fun z => (- 2 ^ 15 <=? z) && (z <? 2 ^ 15)) long_stream = true /\
  length (m_points s) = 515%nat /\
  time_before s 513 = stamp /\
  getTimestamp <$> m_points s !! 513%nat = Some (of_int 1) /\
  f_gt (total_duration s) stamp = true /\
  segment_test s 513 stamp = false /\
  resolvePosition false s stamp
  = splineInterpolateWeighted s 514 (of_int 0) /\
  resolvePosition false s stamp
  <> splineInterpolateWeighted s 513 (of_int 0).
Proof.
  cbv zeta. repeat (split; [vm_compute; reflexivity |]).
  intros H. vm_compute in H. discriminate H.
Qed.


(** C10 as specified fails. At the least timestamp below zero and a first
    duration of 10 the quotient underflows: the parameter is [-0.0f], which
    is not below zero, and in BEZIER mode the result is the anchor of the
    first point itself, for either formula of [mix]. *)
Lemma negative_stamp_parameter_not_negative :
  let stamp : spec_float := least_negative in
  let a0 := Vec32.V3 (of_int 0) (of_int 0) (of_int 0) in
  f_gt (of_int 0) stamp = true /\
  (forall mixf,
     let V := Vec32.vec mixf in
     (fun p => (getPoint p, getTimestamp p))
       <$> m_points (curve32 mixf BEZIER two_points) !! 0%nat
     = Some (a0, of_int 10)) /\
  f_div stamp (of_int 10) = S754_zero true /\
  f_gt (of_int 0) (f_div stamp (of_int 10)) = false /\
  resolvePosition false (curve32 Vec32.mix_lerp BEZIER two_points) stamp
  = Ok a0 /\
  resolvePosition false (curve32 Vec32.mix_blend BEZIER two_points) stamp
  = Ok a0.
Proof.
  cbv zeta. split; [vm_compute; reflexivity |].
  split; [intros mixf; vm_compute; reflexivity |].
  repeat (split; [vm_compute; reflexivity |]).
  vm_compute. reflexivity.
Qed.

End Counterexamples.

(** ** The properties on concrete curves *)

Module Witnesses.
Import Scenario.

Section OnBinary32.
#[local] Existing Instance Binary32.ops.
#[local] Existing Instance lerp32.

Lemma getPointClamped_boundary_witness :
  let s : Spline := two WEIGHTED in
  size s < 2 ^ 31 /\
  getPointClamped s (-5) = Ok (axis_point 0 10) /\
  getPointClamped s (-1) = Ok (axis_point 0 10) /\
  getPointClamped s (size s) = Ok (axis_point 100 10) /\
  getPointClamped s (size s + 100) = Ok (axis_point 100 10).
Proof.
  cbv zeta.
  assert (size (two WEIGHTED) < 2 ^ 31) as Hsz by (vm_compute; reflexivity).
  split; [exact Hsz |].
  destruct (getPointClamped_boundary (two WEIGHTED) (axis_point 0 10)
              [axis_point 100 10] eq_refl Hsz)
    as [lst [Hlast [_ [_ [_ [H5 [H1 [Hn [Hn100 _]]]]]]]]].
  injection Hlast as <-. auto.
Defined.

Lemma addPoint_invalid_timestamp_witness :
  let s : Spline := two WEIGHTED in
  -1 < 0 /\
  addPoint true 1 1 1 (-1) s = Thrown (InvalidTimestamp (-1)) s.
Proof.
  cbv zeta. split; [lia |].
  apply addPoint_invalid_timestamp. lia.
Defined.

Lemma resolvePosition_empty_check_witness :
  let s : Spline := Spline_new BEZIER in
  size s < 2 ^ 31 /\
  resolvePosition true s (Binary32.of_int 3) = Throw IncorrectSplineData.
Proof.
  cbv zeta. split; [vm_compute; reflexivity |].
  apply (resolvePosition_empty_check (Spline_new BEZIER));
    [vm_compute |]; reflexivity.
Defined.

Lemma precalculate_tangents_witness :
  let s : Spline := two WEIGHTED in
  size s < 2 ^ 31 /\
  exists s', precalculate s = Done tt s' /\
             length (m_points s') = length (m_points s).
Proof.
  cbv zeta.
  assert (size (two WEIGHTED) < 2 ^ 31) as Hsz by (vm_compute; reflexivity).
  split; [exact Hsz |].
  destruct (precalculate_tangents (two WEIGHTED) Hsz)
    as [s' [Hrun [_ [Hlen _]]]].
  exists s'. auto.
Defined.

Lemma readData_decodes_witness :
  let groups : list group := [(0, 0, 0, 10); (100, 0, 0, 10)] in
  let s : Spline := Spline_new WEIGHTED in
  Forall (fun g => g <> (0, 0, 0, 0)) groups /\
  Forall (fun g => 0 <= group_duration g) groups /\
  size s + Z.of_nat (length groups) < 2 ^ 31 /\
  exists s',
    readData true two_points 0 s = Done 12 s' /\
    length (m_points s') = 2%nat.
Proof.
  cbv zeta.
  assert (Forall (fun g : group => g <> (0, 0, 0, 0))
                 [(0, 0, 0, 10); (100, 0, 0, 10)]) as Hnz
    by (repeat constructor; discriminate).
  assert (Forall (fun g : group => 0 <= group_duration g)
                 [(0, 0, 0, 10); (100, 0, 0, 10)]) as Hdur
    by (repeat constructor; cbn; lia).
  assert (size (Spline_new WEIGHTED)
          + Z.of_nat (length [(0, 0, 0, 10); (100, 0, 0, 10)]) < 2 ^ 31)
    as Hsz by (vm_compute; reflexivity).
  repeat (split; [assumption |]).
  destruct (readData_decodes true (Spline_new WEIGHTED) _ [] 0 Hnz
              (or_intror Hdur) Hsz)
    as [s' [Hrun [_ [_ [Hlen _]]]]].
  exists s'. split; [exact Hrun | exact Hlen].
Defined.

Lemma splineInterpolateWeighted_average_witness :
  let s : Spline := three WEIGHTED in
  let a := getPoint (axis_point 0 10) in
  let b := getPoint (axis_point 3 10) in
  let c := getPoint (axis_point 9 10) in
  m_points s <> [] /\ size s < 2 ^ 31 /\ 0 <= 1 < 2 ^ 31 - 2 /\
  chain_starts a b c c /\
  splineInterpolateWeighted s 1 (f_of_int 1)
  = Ok (v_scale (v_add (v_add (mix a b (f_of_int 1)) (mix b c (f_of_int 1)))
                       (mix c c (f_of_int 1)))
                (f_div (f_of_int 1) (f_of_int 3))) /\
  splineInterpolateWeighted s 1 (f_of_int 0)
  = Ok (v_scale (v_add (v_add a b) c) (f_div (f_of_int 1) (f_of_int 3))).
Proof.
  cbv zeta.
  assert (m_points (three WEIGHTED) <> []) as Hne by discriminate.
  assert (size (three WEIGHTED) < 2 ^ 31) as Hsz by (vm_compute; reflexivity).
  assert (0 <= 1 < 2 ^ 31 - 2) as Hi by lia.
  assert (chain_starts (getPoint (axis_point 0 10))
            (getPoint (axis_point 3 10)) (getPoint (axis_point 9 10))
            (getPoint (axis_point 9 10))) as Hchain
    by (unfold chain_starts; split; [| split]; vm_compute; reflexivity).
  repeat (split; [assumption |]).
  destruct (splineInterpolateWeighted_average (three WEIGHTED) 1
              (f_of_int 1) Hne Hsz Hi)
    as (pa & pb & pc & pd & Ha & Hb & Hc & Hd & Heq & Hstart).
  assert (getPointClamped (three WEIGHTED) (1 - 1) = Ok (axis_point 0 10))
    as Ea by reflexivity.
  assert (getPointClamped (three WEIGHTED) 1 = Ok (axis_point 3 10))
    as Eb by reflexivity.
  assert (getPointClamped (three WEIGHTED) (1 + 1) = Ok (axis_point 9 10))
    as Ec by reflexivity.
  assert (getPointClamped (three WEIGHTED) (1 + 2) = Ok (axis_point 9 10))
    as Ed by reflexivity.
  rewrite Ea in Ha. rewrite Eb in Hb. rewrite Ec in Hc. rewrite Ed in Hd.
  injection Ha as <-. injection Hb as <-. injection Hc as <-.
  injection Hd as <-.
  split; [exact Heq | exact (Hstart Hchain)].
Defined.

Lemma resolvePosition_negative_stamp_witness :
  let s : Spline := two BEZIER in
  let stamp := Binary32.of_int (-5) in
  f_gt (f_of_int 0) stamp = true /\
  Binary32.nonneg_finite (Binary32.of_int 10) = true /\
  resolvePosition false s stamp
  = splineInterpolateBezier s 0 (f_div stamp (Binary32.of_int 10)) /\
  Binary32.sign_bit (f_div stamp (Binary32.of_int 10)) = Some true /\
  f_gt (f_of_int 0) (f_div stamp (Binary32.of_int 10)) = true.
Proof.
  cbv zeta.
  assert (f_gt (f_of_int 0) (Binary32.of_int (-5)) = true) as Hneg
    by (vm_compute; reflexivity).
  assert (Binary32.nonneg_finite (Binary32.of_int 10) = true) as Hdur
    by (vm_compute; reflexivity).
  split; [exact Hneg |]. split; [exact Hdur |].
  destruct (Binary32Facts.resolvePosition_negative_stamp false (two BEZIER)
              (axis_point 0 10) [axis_point 100 10] _ eq_refl Hneg Hdur)
    as (Hres & Hsign & _).
  split; [exact Hres |]. split; [exact Hsign |].
  vm_compute. reflexivity.
Defined.

Lemma resolvePosition_terminal_witness :
  let s : Spline := two WEIGHTED in
  let stamp : float := f_of_int 20 in
  last (m_points s) = Some (axis_point 100 10) /\
  getTimestamp <$> m_points s = f_of_int <$> [10; 10] /\
  Forall (fun d => 0 <= d < 2 ^ 15) [10; 10] /\
  Binary32.durations_ok s = true /\
  f_gt (total_duration s) stamp = false /\
  resolvePosition false s stamp = Ok (getPoint (axis_point 100 10)).
Proof.
  cbv zeta.
  assert (Forall (fun d => 0 <= d < 2 ^ 15) [10; 10]) as Hds
    by (repeat constructor; lia).
  assert (Binary32.durations_ok (two WEIGHTED) = true) as Hdur
    by (vm_compute; reflexivity).
  assert (f_gt (total_duration (two WEIGHTED)) (f_of_int 20) = false) as Htot
    by (vm_compute; reflexivity).
  split; [reflexivity |]. split; [reflexivity |]. split; [exact Hds |].
  split; [exact Hdur |]. split; [exact Htot |].
  exact (Binary32Facts.resolvePosition_terminal false (two WEIGHTED)
           (axis_point 100 10) (Binary32.of_int 20) eq_refl
           (or_intror (ex_intro _ [10; 10] (conj eq_refl Hds))) Htot).
Defined.

Lemma resolvePosition_selects_witness :
  let s : Spline := two BEZIER in
  let stamp : float := time_before s 1 in
  m_points s <> [] /\
  f_gt (total_duration s) stamp = true /\
  Binary32.durations_ok s = true /\
  segment_test s 1 stamp = true /\
  (exists (i : nat) p,
     m_points s !! i = Some p /\
     segment_test s i (f_of_int 5) = true /\
     resolvePosition false s (f_of_int 5)
     = splineInterpolateBezier s (Z.of_nat i)
         (f_div (f_sub (f_of_int 5) (time_before s i)) (getTimestamp p))) /\
  resolvePosition false s stamp = splineInterpolateBezier s 1 (f_of_int 0).
Proof.
  cbv zeta.
  assert (m_points (two BEZIER) <> []) as Hne by discriminate.
  assert (f_gt (total_duration (two BEZIER)) (time_before (two BEZIER) 1)
          = true) as Htot by (vm_compute; reflexivity).
  assert (f_gt (total_duration (two BEZIER)) (f_of_int 5) = true) as Htot5
    by (vm_compute; reflexivity).
  assert (Binary32.durations_ok (two BEZIER) = true) as Hdur
    by (vm_compute; reflexivity).
  assert (segment_test (two BEZIER) 1 (time_before (two BEZIER) 1) = true)
    as Htest by (vm_compute; reflexivity).
  split; [exact Hne |]. split; [exact Htot |]. split; [exact Hdur |].
  split; [exact Htest |].
  split.
  - destruct (Binary32Facts.resolvePosition_selects false (two BEZIER)
                (Binary32.of_int 5) Hne) as [Hsel _].
    destruct (Hsel Htot5) as (i & p & Hp & _ & Hi & Hres).
    exists i, p. split; [exact Hp |]. split; [exact Hi | exact Hres].
  - destruct (Binary32Facts.resolvePosition_selects false (two BEZIER)
                (@time_before Binary32.ops lerp32 (two BEZIER) 1) Hne)
      as [_ Hstart].
    destruct (Hstart Hdur 1%nat (axis_point 100 10) eq_refl Htot)
      as (i & p & _ & _ & _ & _ & _ & Hres & Hik).
    assert (i = 1%nat) as -> by (apply Hik; exact Htest).
    exact Hres.
Defined.

End OnBinary32.

Section OnBlend32.
#[local] Existing Instance Binary32.ops.
#[local] Existing Instance blend32.


End OnBlend32.
End Witnesses.

(** * Further properties *)

Section Further.
Context {F : FloatOps} {V : VecOps F}.

Implicit Types (s : Spline) (p : SplinePoint) (idx : Z).

(** ** The tangent pass depends on anchors and durations only *)

Lemma same_shape_refl s : same_shape s s.
Proof. now repeat split. Qed.

Lemma same_shape_sym s s' : same_shape s s' -> same_shape s' s.
Proof. intros (? & ? & ?). now repeat split. Qed.

Lemma same_shape_trans s1 s2 s3 :
  same_shape s1 s2 -> same_shape s2 s3 -> same_shape s1 s3.
Proof.
  intros (? & ? & ?) (? & ? & ?). repeat split; congruence.
Qed.

Lemma same_shape_length s s' :
  same_shape s s' -> length (m_points s) = length (m_points s').
Proof.
  intros (_ & Hanch & _).
  now rewrite <- (length_fmap getPoint), Hanch, length_fmap.
Qed.

Lemma same_shape_lookup s s' (j : nat) p :
  same_shape s s' -> m_points s !! j = Some p ->
  exists p', m_points s' !! j = Some p' /\
             m_point p' = m_point p /\ m_timestamp p' = m_timestamp p.
Proof.
  intros (_ & Hanch & Hts) Hp.
  assert ((getPoint <$> m_points s) !! j = (getPoint <$> m_points s') !! j)
    as Ea by now rewrite Hanch.
  assert ((getTimestamp <$> m_points s) !! j
          = (getTimestamp <$> m_points s') !! j) as Et by now rewrite Hts.
  rewrite !list_lookup_fmap in Ea. rewrite !list_lookup_fmap in Et.
  rewrite Hp in Ea, Et.
  destruct (m_points s' !! j) as [p'|]; [| discriminate].
  cbn in Ea, Et. exists p'. unfold getPoint, getTimestamp in *.
  split; [reflexivity | split; congruence].
Qed.

Lemma precalculate_same_shape s s' :
  size s < 2 ^ 31 -> precalculate s = Done tt s' -> same_shape s' s.
Proof.
  intros Hsz Hrun.
  destruct (precalculate_preserves s Hsz) as [r [Hr [Hmode [Hanch Hts]]]].
  rewrite Hrun in Hr. injection Hr as <-. now repeat split.
Qed.

(** The result of [precalculate] is the same on two objects of the same
    shape: every tangent anchor is overwritten. *)
Lemma precalculate_shape s1 s2 r1 r2 :
  same_shape s1 s2 -> size s1 < 2 ^ 31 ->
  precalculate s1 = Done tt r1 -> precalculate s2 = Done tt r2 -> r1 = r2.
Proof.
  intros Hshape Hsz1 Hrun1 Hrun2.
  pose proof (same_shape_length _ _ Hshape) as Hlen.
  assert (size s2 < 2 ^ 31) as Hsz2 by (unfold size in *; now rewrite <- Hlen).
  unfold precalculate in Hrun1, Hrun2.
  rewrite to_int_small in Hrun1, Hrun2 by (unfold size in *; lia).
  unfold size in Hrun1, Hrun2. rewrite Nat2Z.id in Hrun1, Hrun2.
  destruct (precalculate_loop_spec (length (m_points s1)) 0 s1 Hsz1 ltac:(lia))
    as [r1' [Hr1 [Hmode1 [_ [Hlen1 [_ Hin1]]]]]].
  destruct (precalculate_loop_spec (length (m_points s2)) 0 s2 Hsz2 ltac:(lia))
    as [r2' [Hr2 [Hmode2 [_ [Hlen2 [_ Hin2]]]]]].
  change (Z.of_nat 0) with 0 in Hr1, Hr2.
  rewrite Hrun1 in Hr1. injection Hr1 as <-.
  rewrite Hrun2 in Hr2. injection Hr2 as <-.
  assert (m_points r1 = m_points r2) as Hpts.
  { apply list_eq. intros j.
    destruct (m_points s1 !! j) as [p1|] eqn:Hp1.
    - destruct (same_shape_lookup _ _ _ _ Hshape Hp1) as [p2 [Hp2 [Ea Et]]].
      destruct (Hin1 j p1) as [prev1 [next1 [Hprev1 [Hnext1 ->]]]];
        [apply lookup_lt_Some in Hp1; lia | assumption |].
      destruct (Hin2 j p2) as [prev2 [next2 [Hprev2 [Hnext2 ->]]]];
        [apply lookup_lt_Some in Hp2; lia | assumption |].
      destruct Hshape as (_ & Hanch & _).
      destruct (getPointClamped_anchor s1 s2 _ _ (eq_sym Hanch) Hprev1)
        as [prev2' [Hprev2' Eprev]].
      destruct (getPointClamped_anchor s1 s2 _ _ (eq_sym Hanch) Hnext1)
        as [next2' [Hnext2' Enext]].
      rewrite Hprev2 in Hprev2'. injection Hprev2' as <-.
      rewrite Hnext2 in Hnext2'. injection Hnext2' as <-.
      unfold getPoint in *. now rewrite Ea, Et, Eprev, Enext.
    - apply lookup_ge_None in Hp1.
      rewrite !lookup_ge_None_2 by lia. reflexivity. }
  destruct Hshape as (Hmode & _ & _).
  destruct r1, r2. cbn in *. f_equal; congruence.
Qed.

(** X1. The tangent pass overwrites both tangent anchors of every point, so
    its result depends on the mode, the anchors and the durations only, and
    running it again changes nothing. *)
Theorem precalculate_overwrites_tangents s1 s2 :
  same_shape s1 s2 -> size s1 < 2 ^ 31 ->
  exists r,
    precalculate s1 = Done tt r /\
    precalculate s2 = Done tt r /\
    precalculate r = Done tt r /\
    same_shape r s1.
Proof.
  intros Hshape Hsz1.
  pose proof (same_shape_length _ _ Hshape) as Hlen.
  assert (size s2 < 2 ^ 31) as Hsz2 by (unfold size in *; now rewrite <- Hlen).
  destruct (precalculate_preserves s1 Hsz1) as [r1 [Hr1 _]].
  destruct (precalculate_preserves s2 Hsz2) as [r2 [Hr2 _]].
  pose proof (precalculate_shape _ _ _ _ Hshape Hsz1 Hr1 Hr2) as <-.
  pose proof (precalculate_same_shape _ _ Hsz1 Hr1) as Hr1s.
  assert (size r1 < 2 ^ 31) as Hszr
    by (unfold size in *; now rewrite (same_shape_length _ _ Hr1s)).
  destruct (precalculate_preserves r1 Hszr) as [r3 [Hr3 _]].
  pose proof (precalculate_shape _ _ _ _ Hr1s Hszr Hr3 Hr1) as ->.
  exists r1. auto.
Qed.

(** ** The decoder, group by group *)

Lemma accepted_split use_ld (gs : list group) :
  Forall (accepted use_ld) gs ->
  Forall (fun g => g <> (0, 0, 0, 0)) gs /\
  (use_ld = false \/ Forall (fun g => 0 <= group_duration g) gs).
Proof.
  intros Hok. split.
  - eapply Forall_impl; [exact Hok |]. now intros g [Hg _].
  - destruct use_ld; [right | now left].
    eapply Forall_impl; [exact Hok |]. intros g [_ Hg]. now apply Hg.
Qed.

Lemma length_encode_groups (gs : list group) :
  length (encode_groups gs) = (4 * length gs)%nat.
Proof.
  unfold encode_groups.
  induction gs as [|[[[x y] z] d] gs IH]; [reflexivity |].
  cbn [fmap list_fmap concat encode_group]. rewrite length_app, IH.
  cbn [length]. lia.
Qed.

(** The loop takes the accepted groups one by one: it reaches what follows
    them with the cursor 4 units further per group and their points
    appended. *)
Lemma readData_loop_groups use_ld (gs : list group) : forall rest data s,
  Forall (accepted use_ld) gs ->
  readData_loop use_ld (encode_groups gs ++ rest) data s
  = readData_loop use_ld rest (data + 4 * Z.of_nat (length gs))
                  (append_groups s gs).
Proof.
  induction gs as [|[[[x y] z] d] gs IH]; intros rest data s Hok.
  - cbn [encode_groups concat fmap list_fmap app length].
    replace (data + 4 * Z.of_nat 0) with data by lia.
    f_equal. destruct s. unfold append_groups. cbn. now rewrite app_nil_r.
  - apply Forall_cons in Hok as [[Hg Hd] Hok].
    cbn [encode_groups concat fmap list_fmap encode_group app readData_loop].
    rewrite is_segment_end_group, (nonzero_group_not_end _ _ _ _ Hg).
    rewrite (addPoint_accepts use_ld s x y z d)
      by (destruct use_ld; [right; now apply Hd | now left]).
    cbn [and_then]. etrans; [apply (IH rest (data + 4) _ Hok) |].
    f_equal; [cbn [length]; lia |].
    unfold append_groups, addPoint_vec. cbn [m_points m_mode].
    now rewrite <- app_assoc.
Qed.

(** On accepted groups and a terminator [readData] ends with the tangent
    pass on the extended sequence. *)
Lemma readData_run use_ld s (gs : list group) (tail : list Z) (data : Z) :
  Forall (accepted use_ld) gs ->
  size s + Z.of_nat (length gs) < 2 ^ 31 ->
  exists s',
    readData use_ld (encode_groups gs ++ [0; 0; 0; 0] ++ tail) data s
    = Done (data + 4 * (Z.of_nat (length gs) + 1)) s' /\
    precalculate (append_groups s gs) = Done tt s'.
Proof.
  intros Hok Hsz. unfold readData.
  rewrite readData_loop_groups by assumption.
  cbn [app readData_loop]. rewrite is_segment_end_group. cbn [Z.eqb andb].
  destruct (precalculate_preserves (append_groups s gs)) as [s' [Hrun _]].
  { unfold size, append_groups in *. cbn [m_points].
    rewrite length_app, length_fmap. lia. }
  exists s'. rewrite Hrun. cbn [and_then]. split; [f_equal; lia | reflexivity].
Qed.

(** X2. A buffer that ends before a terminator. Whatever accepted groups it
    holds, [readData] goes on past them and reads beyond the end of the
    buffer: it has no bound of its own. *)
Theorem readData_missing_terminator use_ld s (gs : list group)
    (rest : list Z) (data : Z) :
  Forall (accepted use_ld) gs -> (length rest < 4)%nat ->
  readData use_ld (encode_groups gs ++ rest) data s = Undef.
Proof.
  intros Hok Hrest. unfold readData.
  rewrite readData_loop_groups by assumption.
  destruct rest as [|a [|b [|c [|d rest]]]]; try reflexivity.
  cbn [length] in Hrest. lia.
Qed.

(** X3. Segments that share a buffer. The cursor [readData] returns is the
    position right after the terminator, so a second call from there, on
    another object, decodes the next segment and ends after its
    terminator. *)
Theorem readData_chains use_ld sA sB (gs1 gs2 : list group) (tail : list Z)
    (data : Z) :
  Forall (accepted use_ld) gs1 -> Forall (accepted use_ld) gs2 ->
  size sA + Z.of_nat (length gs1) < 2 ^ 31 ->
  size sB + Z.of_nat (length gs2) < 2 ^ 31 ->
  let mem := encode_groups gs1 ++ [0; 0; 0; 0] ++
             encode_groups gs2 ++ [0; 0; 0; 0] ++ tail in
  exists cursor sA' sB',
    readData use_ld mem data sA = Done cursor sA' /\
    cursor = data + 4 * (Z.of_nat (length gs1) + 1) /\
    drop (Z.to_nat (cursor - data)) mem
    = encode_groups gs2 ++ [0; 0; 0; 0] ++ tail /\
    readData use_ld (drop (Z.to_nat (cursor - data)) mem) cursor sB
    = Done (data + 4 * (Z.of_nat (length gs1) + Z.of_nat (length gs2) + 2)) sB' /\
    precalculate (append_groups sA gs1) = Done tt sA' /\
    precalculate (append_groups sB gs2) = Done tt sB'.
Proof.
  intros Hok1 Hok2 HszA HszB mem.
  destruct (readData_run use_ld sA gs1
              (encode_groups gs2 ++ [0; 0; 0; 0] ++ tail) data Hok1 HszA)
    as [sA' [HrunA HpreA]].
  set (cursor := data + 4 * (Z.of_nat (length gs1) + 1)) in *.
  destruct (readData_run use_ld sB gs2 tail cursor Hok2 HszB)
    as [sB' [HrunB HpreB]].
  assert (drop (Z.to_nat (cursor - data)) mem
          = encode_groups gs2 ++ [0; 0; 0; 0] ++ tail) as Hdrop.
  { unfold mem.
    replace (encode_groups gs1 ++ [0; 0; 0; 0] ++
             encode_groups gs2 ++ [0; 0; 0; 0] ++ tail)
      with ((encode_groups gs1 ++ [0; 0; 0; 0]) ++
            encode_groups gs2 ++ [0; 0; 0; 0] ++ tail)
      by now rewrite <- app_assoc.
    apply drop_app_length'.
    rewrite length_app, length_encode_groups. cbn [length].
    unfold cursor. lia. }
  exists cursor, sA', sB'.
  split; [exact HrunA |]. split; [reflexivity |]. split; [exact Hdrop |].
  split; [| now split].
  rewrite Hdrop, HrunB. f_equal. unfold cursor. lia.
Qed.

(** X4. Two segments decoded into the same object. The second call appends
    to the points of the first and runs the tangent pass over all of
    them, so the object ends as if the groups of both segments had been
    one segment. *)
Theorem readData_twice_is_one_segment use_ld s (gs1 gs2 : list group)
    (tail1 tail2 : list Z) (data1 data2 : Z) :
  Forall (accepted use_ld) gs1 -> Forall (accepted use_ld) gs2 ->
  size s + Z.of_nat (length gs1) + Z.of_nat (length gs2) < 2 ^ 31 ->
  exists s1 s2,
    readData use_ld (encode_groups gs1 ++ [0; 0; 0; 0] ++ tail1) data1 s
    = Done (data1 + 4 * (Z.of_nat (length gs1) + 1)) s1 /\
    readData use_ld (encode_groups gs2 ++ [0; 0; 0; 0] ++ tail2) data2 s1
    = Done (data2 + 4 * (Z.of_nat (length gs2) + 1)) s2 /\
    readData use_ld (encode_groups (gs1 ++ gs2) ++ [0; 0; 0; 0] ++ tail2)
             data2 s
    = Done (data2 + 4 * (Z.of_nat (length (gs1 ++ gs2)) + 1)) s2.
Proof.
  intros Hok1 Hok2 Hsz.
  destruct (readData_run use_ld s gs1 tail1 data1 Hok1 ltac:(lia))
    as [s1 [Hrun1 Hpre1]].
  assert (size (append_groups s gs1) < 2 ^ 31) as Hsz1.
  { unfold size, append_groups in *. cbn [m_points].
    rewrite length_app, length_fmap. lia. }
  pose proof (precalculate_same_shape _ _ Hsz1 Hpre1) as Hshape1.
  assert (length (m_points s1)
          = (length (m_points s) + length gs1)%nat) as Hlen1.
  { rewrite (same_shape_length _ _ Hshape1). unfold append_groups.
    cbn [m_points]. now rewrite length_app, length_fmap. }
  destruct (readData_run use_ld s1 gs2 tail2 data2 Hok2)
    as [s2 [Hrun2 Hpre2]]; [unfold size in *; lia |].
  destruct (readData_run use_ld s (gs1 ++ gs2) tail2 data2)
    as [s12 [Hrun12 Hpre12]];
    [now apply Forall_app | rewrite length_app; lia |].
  assert (same_shape (append_groups s1 gs2) (append_groups s (gs1 ++ gs2)))
    as Hshape.
  { destruct Hshape1 as (Hm & Ha & Ht).
    unfold same_shape, append_groups in *. cbn [m_points m_mode] in *.
    rewrite !fmap_app in *. rewrite Ha, Ht.
    rewrite <- !app_assoc. now repeat split. }
  assert (s2 = s12) as <-.
  { apply (precalculate_shape _ _ _ _ Hshape); try assumption.
    unfold size, append_groups in *. cbn [m_points].
    rewrite length_app, length_fmap. lia. }
  exists s1, s2. auto.
Qed.

(** X5. The validating build checks and nothing else. Whenever [readData]
    returns with [USE_LD], it returns the same cursor and the same object
    without it. *)
Theorem readData_validation_only_rejects (mem : list Z) (data : Z) s
    (cursor : Z) s' :
  readData true mem data s = Done cursor s' ->
  readData false mem data s = Done cursor s'.
Proof.
  unfold readData.
  assert (forall (n : nat) mem data s, (length mem <= n)%nat ->
            readData_loop true mem data s = Done cursor s' ->
            readData_loop false mem data s = Done cursor s') as Hind.
  { clear mem data s.
    induction n as [|n IH]; intros mem data s Hlen Hrun.
    - destruct mem; [discriminate Hrun | cbn in Hlen; lia].
    - destruct mem as [|op1 [|op2 [|op3 [|op4 rest]]]]; try discriminate Hrun.
      cbn [readData_loop] in *.
      destruct (is_segment_end (op1 :: op2 :: op3 :: op4 :: rest))
        as [[|]| |]; try discriminate Hrun; [exact Hrun |].
      unfold addPoint in *. cbn [andb] in *.
      destruct (0 >? op4); [discriminate Hrun |].
      cbn [and_then] in *. apply IH; [cbn [length] in Hlen; lia | exact Hrun]. }
  apply (Hind (length mem)). lia.
Qed.

(** X6. Decoding, then querying. From a new object, a segment of at least
    one accepted group leaves an object on which [resolvePosition] returns
    a position for every timestamp, in either build, and dispatches by the
    mode given to the constructor; the empty segment leaves the object
    empty, and the validating query throws. *)
Theorem decode_then_resolve use_ld (mode : SplineMode) (gs : list group)
    (tail : list Z) (data : Z) :
  Forall (accepted use_ld) gs -> Z.of_nat (length gs) < 2 ^ 31 ->
  exists s',
    readData use_ld (encode_groups gs ++ [0; 0; 0; 0] ++ tail) data
             (Spline_new mode)
    = Done (data + 4 * (Z.of_nat (length gs) + 1)) s' /\
    mode_is_bezier s' = match mode with BEZIER => true | WEIGHTED => false end /\
    (gs <> [] ->
     forall use_ld' (stamp : float),
       exists v, resolvePosition use_ld' s' stamp = Ok v) /\
    (gs = [] ->
     s' = Spline_new mode /\
     forall stamp : float,
       resolvePosition true s' stamp = Throw IncorrectSplineData).
Proof.
  intros Hok Hsz.
  destruct (readData_run use_ld (Spline_new mode) gs tail data Hok)
    as [s' [Hrun Hpre]];
    [unfold size; cbn [m_points Spline_new length]; lia |].
  assert (size (append_groups (Spline_new mode) gs) < 2 ^ 31) as Hsz'.
  { unfold size, append_groups. cbn [m_points Spline_new app].
    rewrite length_fmap. lia. }
  pose proof (precalculate_same_shape _ _ Hsz' Hpre) as Hshape.
  pose proof (same_shape_length _ _ Hshape) as Hlen.
  exists s'. split; [exact Hrun |]. split.
  { destruct Hshape as (Hm & _ & _). unfold mode_is_bezier. rewrite Hm.
    now destruct mode. }
  split.
  - intros Hne use_ld' stamp.
    assert (m_points s' <> []) as Hne'.
    { intros E. rewrite E in Hlen. unfold append_groups in Hlen.
      cbn [m_points Spline_new app length] in Hlen.
      rewrite length_fmap in Hlen. destruct gs; [congruence | discriminate]. }
    unfold resolvePosition. rewrite bool_decide_eq_false_2 by assumption.
    rewrite andb_false_r. apply resolve_loop_ok; [assumption |].
    unfold size in *. now rewrite Hlen.
  - intros ->. assert (s' = Spline_new mode) as -> by
      (cbn in Hpre; now injection Hpre as <-).
    split; [reflexivity | reflexivity].
Qed.

(** ** The clamped accessor never leaves the sequence *)

Lemma to_int_le (z : Z) : 0 <= z -> to_int z <= z.
Proof.
  intros Hz. unfold to_int.
  pose proof (Z.mod_le (z + 2 ^ 31) (2 ^ 32) ltac:(lia) ltac:(lia)). lia.
Qed.

Lemma to_int_lt_2_31 (z : Z) : to_int z < 2 ^ 31.
Proof.
  unfold to_int.
  pose proof (Z.mod_pos_bound (z + 2 ^ 31) (2 ^ 32) ltac:(lia)). lia.
Qed.

(** X7. Whatever the index and however long the sequence, [getPointClamped]
    refers to an element of the sequence when there is one; it leaves
    defined behaviour on the empty sequence and only there, and it never
    throws. *)
Theorem getPointClamped_in_bounds s idx :
  (getPointClamped s idx = Undefined <-> m_points s = []) /\
  (forall p, getPointClamped s idx = Ok p -> p ∈ m_points s) /\
  (forall e, getPointClamped s idx <> Throw e).
Proof.
  rewrite getPointClamped_lookup.
  destruct (decide (m_points s = [])) as [E|Hne].
  { rewrite E. cbn [length]. rewrite lookup_nil. cbn.
    repeat split; try discriminate; reflexivity. }
  assert (0 < length (m_points s))%nat as Hn
    by (destruct (m_points s); [congruence | cbn; lia]).
  assert (clamp_index (length (m_points s)) idx < length (m_points s))%nat
    as Hlt.
  { unfold clamp_index.
    pose proof (to_int_le (Z.of_nat (length (m_points s))) ltac:(lia)).
    pose proof (to_int_lt_2_31 (Z.of_nat (length (m_points s)))).
    destruct (Z.leb_spec (to_int (Z.of_nat (length (m_points s)))) idx);
      [lia |].
    destruct (Z.gtb_spec 0 idx); [lia |].
    rewrite to_unsigned_small by lia. lia. }
  destruct (lookup_lt_is_Some_2 _ _ Hlt) as [q Hq]. rewrite Hq. cbn.
  repeat split; try discriminate; try congruence.
  intros p [= <-]. eapply list_elem_of_lookup_2. exact Hq.
Qed.

(** ** The terminator test *)

(** X8. [is_segment_end] answers yes exactly on four zeros. It stops at the
    first value that is not zero, so it reads beyond the end of the buffer
    only when the buffer holds fewer than four values and all of them are
    zero. *)
Theorem is_segment_end_reads (data : list Z) :
  (is_segment_end data = Ok true <-> take 4 data = [0; 0; 0; 0]) /\
  (is_segment_end data = Undefined <->
   (length data < 4)%nat /\ Forall (fun d => d = 0) data) /\
  (forall e, is_segment_end data <> Throw e).
Proof.
  destruct data as [|[|p0|p0] [|[|p1|p1] [|[|p2|p2] [|[|p3|p3] data]]]];
    cbn; (split; [| split]); try (intros e; discriminate);
    (split; [try discriminate; try reflexivity
            | try discriminate; try reflexivity]);
    try (intros [Hlen Hall]; exfalso; first
           [ cbn [length] in Hlen; lia
           | repeat (apply Forall_cons in Hall as [? Hall]); congruence ]);
    try (intros _; split; [cbn [length]; lia | repeat constructor]).
Qed.

(** ** The weighted query does not read the tangent anchors *)

Lemma anchor_clamped_shape s s' idx :
  getPoint <$> m_points s = getPoint <$> m_points s' ->
  getPoint <$> getPointClamped s idx = getPoint <$> getPointClamped s' idx.
Proof.
  intros Hanch. rewrite !getPointClamped_lookup.
  assert (length (m_points s) = length (m_points s')) as <-
    by (rewrite <- (length_fmap getPoint), Hanch; apply length_fmap).
  set (c := clamp_index _ idx).
  assert ((getPoint <$> m_points s) !! c = (getPoint <$> m_points s') !! c)
    as E by now rewrite Hanch.
  rewrite !list_lookup_fmap in E.
  destruct (m_points s !! c), (m_points s' !! c); cbn in *; congruence.
Qed.

Lemma splineInterpolateWeighted_shape s s' (i : Z) (t : float) :
  getPoint <$> m_points s = getPoint <$> m_points s' ->
  splineInterpolateWeighted s i t = splineInterpolateWeighted s' i t.
Proof.
  intros Hanch. unfold splineInterpolateWeighted.
  pose proof (anchor_clamped_shape s s' (to_int i - 1) Hanch) as H1.
  pose proof (anchor_clamped_shape s s' (to_int i + 0) Hanch) as H2.
  pose proof (anchor_clamped_shape s s' (to_int i + 1) Hanch) as H3.
  pose proof (anchor_clamped_shape s s' (to_int i + 2) Hanch) as H4.
  destruct (getPointClamped s (to_int i - 1)),
           (getPointClamped s' (to_int i - 1)); cbn in H1 |- *;
    try discriminate H1; try reflexivity; [| congruence].
  destruct (getPointClamped s (to_int i + 0)),
           (getPointClamped s' (to_int i + 0)); cbn in H2 |- *;
    try discriminate H2; try reflexivity; [| congruence].
  destruct (getPointClamped s (to_int i + 1)),
           (getPointClamped s' (to_int i + 1)); cbn in H3 |- *;
    try discriminate H3; try reflexivity; [| congruence].
  destruct (getPointClamped s (to_int i + 2)),
           (getPointClamped s' (to_int i + 2)); cbn in H4 |- *;
    try discriminate H4; try reflexivity; [| congruence].
  congruence.
Qed.

Lemma resolve_loop_weighted_shape s s' (stamp : float) :
  mode_is_bezier s = false -> mode_is_bezier s' = false ->
  getPoint <$> m_points s = getPoint <$> m_points s' ->
  forall (rest rest' : list SplinePoint) ii (t0 : float),
    getTimestamp <$> rest = getTimestamp <$> rest' ->
    resolve_loop s rest ii t0 stamp = resolve_loop s' rest' ii t0 stamp.
Proof.
  intros Hm Hm' Hanch rest.
  induction rest as [|vv rest IH]; intros [|vv' rest'] ii t0 Hts;
    try discriminate Hts; cbn [resolve_loop].
  - assert (getPoint <$> last (m_points s) = getPoint <$> last (m_points s'))
      as E by now rewrite <- !fmap_last, Hanch.
    destruct (last (m_points s)), (last (m_points s')); cbn in *; congruence.
  - injection Hts as Ev Hts. rewrite Ev, Hm, Hm'.
    destruct (f_gt _ stamp); [| now apply IH].
    now apply splineInterpolateWeighted_shape.
Qed.

(** X11. In WEIGHTED mode the query reads anchors and durations only. Two
    objects that differ in their tangent anchors at most give the same
    result; in particular the query gives the same before and after the
    tangent pass. *)
Theorem resolvePosition_weighted_ignores_tangents use_ld s s' (stamp : float) :
  same_shape s s' -> mode_is_bezier s = false ->
  resolvePosition use_ld s stamp = resolvePosition use_ld s' stamp /\
  (size s < 2 ^ 31 ->
   exists r, precalculate s = Done tt r /\
             resolvePosition use_ld r stamp = resolvePosition use_ld s stamp).
Proof.
  assert (forall a b : Spline, same_shape a b -> mode_is_bezier a = false ->
            resolvePosition use_ld a stamp = resolvePosition use_ld b stamp)
    as Hcore.
  { intros a b Hshape Hm.
    pose proof (same_shape_length _ _ Hshape) as Hlen.
    destruct Hshape as (Hmode & Hanch & Hts).
    assert (mode_is_bezier b = false) as Hm'
      by (unfold mode_is_bezier in *; now rewrite <- Hmode).
    unfold resolvePosition.
    assert (bool_decide (m_points a = []) = bool_decide (m_points b = []))
      as ->.
    { destruct (m_points a), (m_points b); try discriminate Hlen;
        reflexivity. }
    destruct (use_ld && _); [reflexivity |].
    now apply resolve_loop_weighted_shape. }
  intros Hshape Hm. split; [now apply Hcore |].
  intros Hsz. destruct (precalculate_preserves s Hsz) as [r [Hr _]].
  exists r. split; [exact Hr |].
  pose proof (precalculate_same_shape _ _ Hsz Hr) as Hrs.
  apply Hcore; [exact Hrs |].
  destruct Hrs as (Hmode & _ & _). unfold mode_is_bezier in *.
  now rewrite Hmode.
Qed.

(** ** The selected segment starts at or before the timestamp *)

(** X12. For a timestamp that is not below zero, the segment the query
    selects starts at or before the timestamp and ends after it: its
    accumulated time does not exceed the timestamp, and that time plus the
    duration does. *)
Theorem resolvePosition_segment_brackets_stamp s (stamp : float) (i : nat) p :
  f_gt (f_of_int 0) stamp = false ->
  m_points s !! i = Some p ->
  (forall j, (j < i)%nat -> segment_test s j stamp = false) ->
  segment_test s i stamp = true ->
  f_gt (time_before s i) stamp = false /\
  f_gt (f_add (time_before s i) (getTimestamp p)) stamp = true /\
  forall use_ld,
    resolvePosition use_ld s stamp
    = blend s (Z.of_nat i)
            (f_div (f_sub stamp (time_before s i)) (getTimestamp p)).
Proof.
  intros Hstamp Hp Hmin Htest.
  assert (m_points s <> []) as Hne by (intros E; now rewrite E in Hp).
  split; [| split].
  - destruct i as [|i]; [exact Hstamp |].
    destruct (lookup_lt_is_Some_2 (m_points s) i) as [q Hq];
      [apply lookup_lt_Some in Hp; lia |].
    pose proof (Hmin i ltac:(lia)) as Hprev.
    now rewrite (segment_test_lookup _ _ _ _ Hq),
      <- (time_before_S _ _ _ Hq) in Hprev.
  - now rewrite (segment_test_lookup _ _ _ _ Hp) in Htest.
  - intros use_ld. rewrite resolvePosition_loop by assumption.
    apply (resolve_loop_select s stamp i 0 i p);
      [lia | assumption | | assumption].
    intros j Hj. apply Hmin. lia.
Qed.

(** ** What the outcome of the decoder tells about the buffer *)

Lemma of_option_no_throw {A} (o : option A) e : of_option o <> Throw e.
Proof. now destruct o. Qed.

Lemma getPointClamped_no_throw s idx e : getPointClamped s idx <> Throw e.
Proof.
  unfold getPointClamped.
  destruct (_ <=? _); [apply of_option_no_throw |].
  destruct (_ >? _); apply of_option_no_throw.
Qed.

Lemma tangent_no_throw s ii ia ib e : tangent s ii ia ib <> Throw e.
Proof.
  unfold tangent.
  pose proof (getPointClamped_no_throw s ia) as Ha.
  pose proof (getPointClamped_no_throw s ib) as Hb.
  destruct (getPointClamped s ia) as [pa|ea|]; cbn;
    [| now destruct (Ha ea) | discriminate].
  destruct (getPointClamped s ib) as [pb|eb|]; cbn;
    [| now destruct (Hb eb) | discriminate].
  now destruct (m_points s !! Z.to_nat ii).
Qed.

Lemma precalculate_body_no_throw ii s e s' :
  precalculate_body ii s <> Thrown e s'.
Proof.
  unfold precalculate_body.
  pose proof (tangent_no_throw s ii (ii - 1) (ii + 1)) as Ht.
  destruct (tangent s ii (ii - 1) (ii + 1)) as [tp|e0|]; cbn;
    [| now destruct (Ht e0) | discriminate].
  destruct (m_points s !! Z.to_nat ii) as [vv|]; cbn; [| discriminate].
  set (s1 := set_point s ii (setPrev vv tp)).
  pose proof (tangent_no_throw s1 ii (ii + 1) (ii - 1)) as Ht1.
  destruct (tangent s1 ii (ii + 1) (ii - 1)) as [tn|e1|]; cbn;
    [| now destruct (Ht1 e1) | discriminate].
  destruct (_ !! Z.to_nat ii); cbn; discriminate.
Qed.

Lemma precalculate_no_throw s e s' : precalculate s <> Thrown e s'.
Proof.
  unfold precalculate. generalize (Z.to_nat (to_int (size s))) as n.
  generalize 0 as ii. revert s.
  intros s ii n. revert ii s.
  induction n as [|n IH]; intros ii s; cbn [precalculate_loop];
    [discriminate |].
  pose proof (precalculate_body_no_throw ii s) as Hb.
  destruct (precalculate_body ii s) as [[] s1|e1 s1|]; cbn [and_then];
    [apply IH | | discriminate].
  intros E. injection E as -> ->. now apply (Hb e s').
Qed.

Lemma append_groups_nil s : append_groups s [] = s.
Proof. destruct s. unfold append_groups. cbn. now rewrite app_nil_r. Qed.

Lemma append_groups_cons s (x y z d : Z) (gs : list group) :
  append_groups
    (addPoint_vec (vec3_new (f_of_int x) (f_of_int y) (f_of_int z))
                  (f_of_int d) s) gs
  = append_groups s ((x, y, z, d) :: gs).
Proof.
  unfold append_groups, addPoint_vec. cbn [m_points m_mode].
  now rewrite <- app_assoc.
Qed.

Lemma end_test_true (x y z d : Z) :
  (0 =? x) && (0 =? y) && (0 =? z) && (0 =? d) = true ->
  x = 0 /\ y = 0 /\ z = 0 /\ d = 0.
Proof.
  destruct (Z.eqb_spec 0 x), (Z.eqb_spec 0 y), (Z.eqb_spec 0 z),
    (Z.eqb_spec 0 d); cbn; try discriminate; auto.
Qed.

Lemma end_test_false (x y z d : Z) :
  (0 =? x) && (0 =? y) && (0 =? z) && (0 =? d) = false ->
  (x, y, z, d) <> (0, 0, 0, 0).
Proof.
  intros E H. injection H as -> -> -> ->. discriminate E.
Qed.

(** X13. [readData] returns only at a terminator. Whenever it
    returns a cursor, the buffer is a run of accepted groups, an all-zero
    group and a rest that was not read; the cursor is just behind the
    terminator and the object is the tangent pass of the sequence extended
    by the points of the groups. *)
Theorem readData_returns_only_at_terminator use_ld (mem : list Z) (data : Z)
    s (cursor : Z) s' :
  readData use_ld mem data s = Done cursor s' ->
  exists (gs : list group) (tail : list Z),
    mem = encode_groups gs ++ [0; 0; 0; 0] ++ tail /\
    Forall (accepted use_ld) gs /\
    cursor = data + 4 * (Z.of_nat (length gs) + 1) /\
    precalculate (append_groups s gs) = Done tt s'.
Proof.
  unfold readData.
  assert (forall (n : nat) mem data s, (length mem <= n)%nat ->
            readData_loop use_ld mem data s = Done cursor s' ->
            exists (gs : list group) (tail : list Z),
              mem = encode_groups gs ++ [0; 0; 0; 0] ++ tail /\
              Forall (accepted use_ld) gs /\
              cursor = data + 4 * (Z.of_nat (length gs) + 1) /\
              precalculate (append_groups s gs) = Done tt s') as Hind.
  { clear mem data s.
    induction n as [|n IH]; intros mem data s Hlen Hrun.
    - destruct mem; [discriminate Hrun | cbn in Hlen; lia].
    - destruct mem as [|op1 [|op2 [|op3 [|op4 rest]]]]; try discriminate Hrun.
      cbn [readData_loop] in Hrun. rewrite is_segment_end_group in Hrun.
      destruct ((0 =? op1) && (0 =? op2) && (0 =? op3) && (0 =? op4))
        eqn:Hend.
      + apply end_test_true in Hend as (-> & -> & -> & ->).
        exists [], rest. rewrite append_groups_nil.
        destruct (precalculate s) as [[] s1|e1 s1|]; try discriminate Hrun.
        cbn [and_then] in Hrun. injection Hrun as <- <-.
        split; [reflexivity |]. split; [constructor |].
        split; [cbn [length]; lia | reflexivity].
      + apply end_test_false in Hend.
        unfold addPoint in Hrun.
        destruct (use_ld && (0 >? op4)) eqn:Hchk; [discriminate Hrun |].
        cbn [and_then] in Hrun.
        apply IH in Hrun as (gs & tail & -> & Hok & -> & Hpre);
          [| cbn [length] in Hlen; lia].
        exists ((op1, op2, op3, op4) :: gs), tail.
        rewrite append_groups_cons in Hpre.
        split; [reflexivity |].
        split; [| split; [cbn [length]; lia | exact Hpre]].
        apply Forall_cons. split; [| exact Hok].
        split; [exact Hend |]. intros ->. cbn [andb group_duration] in *.
        destruct (Z.gtb_spec 0 op4); [discriminate Hchk | lia]. }
  apply (Hind (length mem)). lia.
Qed.

(** X14. [readData] throws for one reason only. Whenever it throws,
    the build is a validating one and the buffer is a run of accepted
    groups followed by a group of negative duration; the exception carries
    that duration, and the object is left with the points of the groups
    before it appended and no tangent pass run on them. *)
Theorem readData_throws_only_on_negative_duration use_ld (mem : list Z)
    (data : Z) s e s' :
  readData use_ld mem data s = Thrown e s' ->
  use_ld = true /\
  exists (gs : list group) (g : group) (rest : list Z),
    mem = encode_groups gs ++ encode_group g ++ rest /\
    Forall (accepted true) gs /\
    group_duration g < 0 /\
    e = InvalidTimestamp (group_duration g) /\
    s' = append_groups s gs.
Proof.
  unfold readData.
  assert (forall (n : nat) mem data s, (length mem <= n)%nat ->
            readData_loop use_ld mem data s = Thrown e s' ->
            use_ld = true /\
            exists (gs : list group) (g : group) (rest : list Z),
              mem = encode_groups gs ++ encode_group g ++ rest /\
              Forall (accepted true) gs /\
              group_duration g < 0 /\
              e = InvalidTimestamp (group_duration g) /\
              s' = append_groups s gs) as Hind.
  { clear mem data s.
    induction n as [|n IH]; intros mem data s Hlen Hrun.
    - destruct mem; [discriminate Hrun | cbn in Hlen; lia].
    - destruct mem as [|op1 [|op2 [|op3 [|op4 rest]]]]; try discriminate Hrun.
      cbn [readData_loop] in Hrun. rewrite is_segment_end_group in Hrun.
      destruct ((0 =? op1) && (0 =? op2) && (0 =? op3) && (0 =? op4))
        eqn:Hend.
      + pose proof (precalculate_no_throw s) as Hpre.
        destruct (precalculate s) as [[] s1|e1 s1|]; try discriminate Hrun.
        cbn [and_then] in Hrun. injection Hrun as -> ->.
        now destruct (Hpre e s').
      + apply end_test_false in Hend.
        unfold addPoint in Hrun.
        destruct use_ld; cbn [andb] in Hrun.
        * destruct (Z.gtb_spec 0 op4) as [Hneg|Hpos].
          -- cbn [and_then] in Hrun. injection Hrun as <- <-.
             split; [reflexivity |].
             exists [], (op1, op2, op3, op4), rest.
             rewrite append_groups_nil. cbn [group_duration].
             split; [reflexivity |]. split; [constructor |].
             split; [lia |]. split; reflexivity.
          -- cbn [and_then] in Hrun.
             apply IH in Hrun as (_ & gs & g & rest' & -> & Hok & Hg & -> & ->);
               [| cbn [length] in Hlen; lia].
             split; [reflexivity |].
             exists ((op1, op2, op3, op4) :: gs), g, rest'.
             rewrite append_groups_cons.
             split; [reflexivity |].
             split; [| split; [exact Hg | split; reflexivity]].
             apply Forall_cons. split; [| exact Hok].
             split; [exact Hend |]. intros _. cbn [group_duration]. lia.
        * cbn [and_then] in Hrun.
          apply IH in Hrun as (Habs & _); [discriminate Habs |].
          cbn [length] in Hlen. lia. }
  apply (Hind (length mem)). lia.
Qed.

End Further.

(** ** binary32: the divisor of the query *)

Module Binary32Further.
Import Binary32.

(** Adding a zero of either sign changes no comparison. *)
Lemma add_zero_compare (x t : spec_float) (b : bool) :
  gt (SFadd prec emax x (S754_zero b)) t = gt x t.
Proof. destruct x as [[]|[]| |[] m e], b; reflexivity. Qed.

Lemma gt_nan_l (t : spec_float) : gt S754_nan t = false.
Proof. reflexivity. Qed.

Lemma add_nan_r (x : spec_float) : SFadd prec emax x S754_nan = S754_nan.
Proof. now destruct x as [[]|[]| |[] m e]. Qed.

(** [static_cast<float>] of an integer that is not negative is not below
    zero. *)
Lemma of_int_not_negative (u : Z) : 0 <= u -> gt (of_int 0) (of_int u) = false.
Proof.
  intros Hu. destruct u as [|p|p]; [reflexivity | | lia].
  unfold of_int at 2, binary_normalize, binary_round.
  destruct (shl_align p 0 _) as [mz ez].
  pose proof (Binary32Facts.binary_round_aux_sign false (Zpos mz) ez loc_Exact
                ltac:(lia)) as Hs.
  destruct (binary_round_aux prec emax false (Z.pos mz) ez loc_Exact)
    as [[]|[]| |[] m e]; cbn in Hs; try discriminate Hs; reflexivity.
Qed.

(** *** The conversion of the stream values *)

Lemma iter_xO_inj (q : positive) : forall p p' : positive,
  Pos.iter xO p q = Pos.iter xO p' q -> p = p'.
Proof.
  induction q as [|q IH] using Pos.peano_ind; intros p p' E.
  - cbn in E. congruence.
  - rewrite !Pos.iter_succ in E. injection E as E. now apply IH.
Qed.

(** [static_cast<float>] of an integer of less than 24 bits: the mantissa
    is the integer shifted up to 24 digits, and nothing is rounded away. *)
Lemma binary_round_small (sx : bool) (p : positive) :
  Zpos p < 2 ^ 23 ->
  exists q : positive,
    binary_round prec emax sx p 0
    = S754_finite sx (Pos.iter xO p q) (Zneg q).
Proof.
  intros Hp.
  pose proof (Binary32Facts.digits2_pos_bound p 23 ltac:(lia) Hp) as Hd. clear Hp.
  unfold binary_round, shl_align.
  rewrite Z.add_0_r.
  replace (fexp prec emax (Zpos (digits2_pos p)))
    with (Zpos (digits2_pos p) - 24)
    by (unfold fexp, SpecFloat.emin, prec, emax; lia).
  rewrite Z.sub_0_r.
  destruct (Zpos (digits2_pos p) - 24) as [|q|q] eqn:Hq; [lia | lia |].
  exists q. apply Binary32Facts.binary_round_aux_exact; [| lia].
  rewrite Binary32Facts.digits2_pos_shift. unfold prec. lia.
Qed.

Lemma of_int_inj (a b : Z) :
  is_int16 a -> is_int16 b -> of_int a = of_int b -> a = b.
Proof.
  unfold is_int16, of_int, binary_normalize. intros Ha Hb E.
  destruct a as [|p|p], b as [|p'|p']; try reflexivity;
    try (destruct (binary_round_small false p ltac:(lia)) as [q Hq];
         rewrite Hq in E);
    try (destruct (binary_round_small true p ltac:(lia)) as [q Hq];
         rewrite Hq in E);
    try (destruct (binary_round_small false p' ltac:(lia)) as [q' Hq'];
         rewrite Hq' in E);
    try (destruct (binary_round_small true p' ltac:(lia)) as [q' Hq'];
         rewrite Hq' in E);
    try discriminate E;
    injection E as Em Ee; subst q'; apply iter_xO_inj in Em; congruence.
Qed.

(** X15. Decoding loses nothing. In binary32, two groups of 16-bit
    values that [addPoint] turns into the same object are the same group:
    [static_cast<float>] is exact on [int16_t], so distinct coordinates
    and durations of the stream stay distinct in the sequence. *)
Theorem addPoint_keeps_groups_apart
    (mixf : Vec32.v3 -> Vec32.v3 -> spec_float -> Vec32.v3) use_ld
    (s s' : @Spline ops (Vec32.vec mixf)) (x1 y1 z1 d1 x2 y2 z2 d2 : Z) :
  Forall is_int16 [x1; y1; z1; d1; x2; y2; z2; d2] ->
  addPoint use_ld x1 y1 z1 d1 s = Done tt s' ->
  addPoint use_ld x2 y2 z2 d2 s = Done tt s' ->
  (x1, y1, z1, d1) = (x2, y2, z2, d2).
Proof.
  intros Hall H1 H2.
  repeat (apply Forall_cons in Hall as [? Hall]).
  unfold addPoint in H1, H2.
  destruct (use_ld && (0 >? d1)); [discriminate H1 |].
  destruct (use_ld && (0 >? d2)); [discriminate H2 |].
  pose proof (eq_trans H1 (eq_sym H2)) as E.
  apply (f_equal (fun o : outcome unit =>
                    match o with Done _ t => m_points t | _ => [] end)) in E.
  cbn [addPoint_vec m_points] in E.
  apply app_inv_head in E. injection E as Ex Ey Ez Ed.
  cbn [f_of_int ops] in *.
  f_equal; [f_equal; [f_equal |] |]; apply of_int_inj; auto.
Qed.

Section Divisor.
Context {V : VecOps ops}.

Lemma selected_duration (s : Spline) (stamp : spec_float) (i : nat)
    (p : SplinePoint) :
  f_gt (f_of_int 0) stamp = false ->
  m_points s !! i = Some p ->
  (forall j, (j < i)%nat -> segment_test s j stamp = false) ->
  segment_test s i stamp = true ->
  (forall b, getTimestamp p <> S754_zero b) /\ getTimestamp p <> S754_nan.
Proof.
  intros Hstamp Hp Hmin Htest.
  rewrite (segment_test_lookup _ _ _ _ Hp) in Htest.
  assert (f_gt (time_before s i) stamp = false) as Hbefore.
  { destruct i as [|i]; [exact Hstamp |].
    destruct (lookup_lt_is_Some_2 (m_points s) i) as [q Hq];
      [apply lookup_lt_Some in Hp; lia |].
    pose proof (Hmin i ltac:(lia)) as Hprev.
    now rewrite (segment_test_lookup _ _ _ _ Hq),
      <- (time_before_S _ _ _ Hq) in Hprev. }
  cbn [float f_gt f_add ops] in *.
  split.
  - intros b E. rewrite E, add_zero_compare in Htest. congruence.
  - intros E. rewrite E, add_nan_r in Htest. discriminate Htest.
Qed.

(** X16. For a timestamp that is not below zero the query never
    divides by zero. The duration of the segment it selects, the divisor
    of the interpolation parameter, is neither a zero of either sign nor
    NaN: a point of no duration is stepped over. *)
Theorem resolvePosition_divisor_not_zero use_ld (s : Spline)
    (stamp : spec_float) (i : nat) (p : SplinePoint) :
  f_gt (f_of_int 0) stamp = false ->
  m_points s !! i = Some p ->
  (forall j, (j < i)%nat -> segment_test s j stamp = false) ->
  segment_test s i stamp = true ->
  resolvePosition use_ld s stamp
  = blend s (Z.of_nat i)
          (f_div (f_sub stamp (time_before s i)) (getTimestamp p)) /\
  (forall b, getTimestamp p <> S754_zero b) /\
  getTimestamp p <> S754_nan.
Proof.
  intros Hstamp Hp Hmin Htest. split.
  - assert (m_points s <> []) as Hne by (intros E; now rewrite E in Hp).
    rewrite resolvePosition_loop by assumption.
    apply (resolve_loop_select s stamp i 0 i p);
      [lia | assumption | | assumption].
    intros j Hj. apply Hmin. lia.
  - now apply (selected_duration s stamp i p).
Qed.

(** X17. The wrapper for an unsigned timestamp, on a non-empty
    sequence, returns the anchor of the last point or the blend of a
    segment whose duration is neither zero nor NaN; it never divides by
    zero and never fails. *)
Theorem resolvePosition_unsigned_total use_ld (s : Spline) (stamp : Z) :
  0 <= stamp -> m_points s <> [] ->
  (exists lst, last (m_points s) = Some lst /\
     (forall j, segment_test s j (of_int stamp) = false) /\
     resolvePosition_unsigned use_ld s stamp = Ok (getPoint lst)) \/
  (exists i p, m_points s !! i = Some p /\
     (forall b, getTimestamp p <> S754_zero b) /\
     getTimestamp p <> S754_nan /\
     resolvePosition_unsigned use_ld s stamp
     = blend s (Z.of_nat i)
             (f_div (f_sub (of_int stamp) (time_before s i))
                    (getTimestamp p))).
Proof.
  intros Hu Hne. unfold resolvePosition_unsigned.
  change (@f_of_int ops stamp) with (of_int stamp).
  pose proof (of_int_not_negative stamp Hu) as Hstamp.
  rewrite resolvePosition_loop by assumption.
  destruct (bounded_search (fun j => segment_test s j (of_int stamp))
              (length (m_points s))) as [Hex|Hall].
  - right. apply first_success in Hex as [i [Hi [Htest Hmin]]].
    destruct (lookup_lt_is_Some_2 (m_points s) i Hi) as [p Hp].
    destruct (selected_duration s (of_int stamp) i p Hstamp Hp Hmin Htest)
      as [Hz Hn].
    exists i, p. repeat split; [assumption | assumption | assumption |].
    apply (resolve_loop_select s (of_int stamp) i 0 i p);
      [lia | assumption | | assumption].
    intros j Hj. apply Hmin. lia.
  - left. destruct (last (m_points s)) as [lst|] eqn:Hlast;
      [| now apply last_None in Hlast].
    assert (forall j, segment_test s j (of_int stamp) = false) as Hnone.
    { intros j. destruct (Nat.lt_ge_cases j (length (m_points s))) as [Hj|Hj];
        [now apply Hall |].
      unfold segment_test. now rewrite lookup_ge_None_2. }
    exists lst. repeat split; [assumption |].
    rewrite (resolve_loop_none s (of_int stamp) (length (m_points s)) 0);
      [now rewrite Hlast | lia | intros j _; apply Hnone].
Qed.

End Divisor.
End Binary32Further.

(** ** Instances of the further properties *)

Module FurtherWitnesses.
Import Scenario.

Lemma two_groups_accepted use_ld :
  Forall (accepted use_ld) [(0, 0, 0, 10); (100, 0, 0, 10)].
Proof.
  repeat constructor; try discriminate; intros _; cbn; lia.
Qed.

Lemma one_group_accepted use_ld (x : Z) :
  x <> 0 -> Forall (accepted use_ld) [(x, 0, 0, 10)].
Proof.
  intros Hx. repeat constructor; [congruence | intros _; cbn; lia].
Qed.

Section OnBinary32.
#[local] Existing Instance Binary32.ops.
#[local] Existing Instance lerp32.

Lemma precalculate_overwrites_tangents_witness :
  let s : Spline := two BEZIER in
  same_shape s s /\ size s < 2 ^ 31 /\
  exists r, precalculate s = Done tt r /\ precalculate r = Done tt r.
Proof.
  cbv zeta.
  assert (size (two BEZIER) < 2 ^ 31) as Hsz by (vm_compute; reflexivity).
  split; [apply same_shape_refl |]. split; [exact Hsz |].
  destruct (precalculate_overwrites_tangents (two BEZIER) (two BEZIER)
              (same_shape_refl _) Hsz) as [r [Hrun [_ [Hagain _]]]].
  exists r. split; assumption.
Defined.

Lemma readData_missing_terminator_witness :
  let s : Spline := Spline_new WEIGHTED in
  Forall (accepted true) [(0, 0, 0, 10); (100, 0, 0, 10)] /\
  (length [0; 0] < 4)%nat /\
  readData true [0; 0; 0; 10; 100; 0; 0; 10; 0; 0] 0 s = Undef.
Proof.
  cbv zeta.
  assert (length [0; 0] < 4)%nat as Hrest by (cbn; lia).
  split; [apply two_groups_accepted |]. split; [exact Hrest |].
  exact (readData_missing_terminator true (Spline_new WEIGHTED)
           [(0, 0, 0, 10); (100, 0, 0, 10)] [0; 0] 0
           (two_groups_accepted true) Hrest).
Defined.

Lemma readData_chains_witness :
  let s : Spline := Spline_new WEIGHTED in
  Forall (accepted false) [(0, 0, 0, 10); (100, 0, 0, 10)] /\
  Forall (accepted false) [(1, 0, 0, 10)] /\
  size s + 2 < 2 ^ 31 /\ size s + 1 < 2 ^ 31 /\
  exists sA' sB',
    readData false (two_points ++ [1; 0; 0; 10; 0; 0; 0; 0]) 0 s
    = Done 12 sA' /\
    readData false [1; 0; 0; 10; 0; 0; 0; 0] 12 s = Done 20 sB'.
Proof.
  cbv zeta.
  assert (size (Spline_new WEIGHTED) + 2 < 2 ^ 31) as Hsz2
    by (vm_compute; reflexivity).
  assert (size (Spline_new WEIGHTED) + 1 < 2 ^ 31) as Hsz1
    by (vm_compute; reflexivity).
  split; [apply two_groups_accepted |].
  split; [apply one_group_accepted; lia |].
  split; [exact Hsz2 |]. split; [exact Hsz1 |].
  destruct (readData_chains false (Spline_new WEIGHTED) (Spline_new WEIGHTED)
              [(0, 0, 0, 10); (100, 0, 0, 10)] [(1, 0, 0, 10)] [] 0
              (two_groups_accepted false)
              (one_group_accepted false 1 ltac:(lia)) Hsz2 Hsz1)
    as (cursor & sA' & sB' & Hrun & Hc & Hdrop & Hrun2 & _).
  rewrite Hdrop in Hrun2. subst cursor.
  exists sA', sB'. split; [exact Hrun | exact Hrun2].
Defined.

Lemma readData_twice_is_one_segment_witness :
  let s : Spline := Spline_new BEZIER in
  Forall (accepted false) [(0, 0, 0, 10)] /\
  Forall (accepted false) [(100, 0, 0, 10)] /\
  size s + 1 + 1 < 2 ^ 31 /\
  exists s1 s2,
    readData false [0; 0; 0; 10; 0; 0; 0; 0] 0 s = Done 8 s1 /\
    readData false [100; 0; 0; 10; 0; 0; 0; 0] 0 s1 = Done 8 s2 /\
    readData false two_points 0 s = Done 12 s2.
Proof.
  cbv zeta.
  assert (Forall (accepted false) [(0, 0, 0, 10)]) as Hok1
    by (repeat constructor; [discriminate | intros _; cbn; lia]).
  assert (size (Spline_new BEZIER) + 1 + 1 < 2 ^ 31) as Hsz
    by (vm_compute; reflexivity).
  split; [exact Hok1 |].
  split; [apply one_group_accepted; lia |].
  split; [exact Hsz |].
  destruct (readData_twice_is_one_segment false (Spline_new BEZIER)
              [(0, 0, 0, 10)] [(100, 0, 0, 10)] [] [] 0 0 Hok1
              (one_group_accepted false 100 ltac:(lia)) Hsz)
    as (s1 & s2 & Hrun1 & Hrun2 & Hboth).
  exists s1, s2. split; [exact Hrun1 |]. split; [exact Hrun2 | exact Hboth].
Defined.

Lemma readData_validation_only_rejects_witness :
  let s : Spline := Spline_new WEIGHTED in
  exists s',
    readData true two_points 0 s = Done 12 s' /\
    readData false two_points 0 s = Done 12 s'.
Proof.
  cbv zeta.
  destruct (readData_run true (Spline_new WEIGHTED)
              [(0, 0, 0, 10); (100, 0, 0, 10)] [] 0
              (two_groups_accepted true) ltac:(vm_compute; reflexivity))
    as [s' [Hrun _]].
  exists s'. split; [exact Hrun |].
  exact (readData_validation_only_rejects two_points 0
           (Spline_new WEIGHTED) 12 s' Hrun).
Defined.

Lemma decode_then_resolve_witness :
  Forall (accepted true) [(0, 0, 0, 10); (100, 0, 0, 10)] /\
  Z.of_nat 2 < 2 ^ 31 /\
  exists s' v,
    readData true two_points 0 (Spline_new BEZIER) = Done 12 s' /\
    mode_is_bezier s' = true /\
    resolvePosition true s' (f_of_int 5) = Ok v.
Proof.
  assert (Z.of_nat 2 < 2 ^ 31) as Hsz by (cbn; lia).
  split; [apply two_groups_accepted |]. split; [exact Hsz |].
  destruct (decode_then_resolve true BEZIER
              [(0, 0, 0, 10); (100, 0, 0, 10)] [] 0
              (two_groups_accepted true) Hsz)
    as (s' & Hrun & Hmode & Hres & _).
  destruct (Hres ltac:(discriminate) true (f_of_int 5)) as [v Hv].
  exists s', v. split; [exact Hrun |]. split; [exact Hmode | exact Hv].
Defined.

Lemma resolvePosition_weighted_ignores_tangents_witness :
  let s : Spline := two WEIGHTED in
  let s' : Spline :=
    {| m_points := [setPrev (axis_point 0 10)
                            (vec3_new (f_of_int 1) (f_of_int 2) (f_of_int 3));
                    axis_point 100 10];
       m_mode := m_mode s |} in
  same_shape s s' /\ mode_is_bezier s = false /\
  resolvePosition false s (f_of_int 5) = resolvePosition false s' (f_of_int 5).
Proof.
  cbv zeta.
  set (s' := {| m_points := _; m_mode := _ |}).
  assert (same_shape (two WEIGHTED) s') as Hshape
    by (repeat split; reflexivity).
  assert (mode_is_bezier (two WEIGHTED) = false) as Hmode by reflexivity.
  split; [exact Hshape |]. split; [exact Hmode |].
  apply (resolvePosition_weighted_ignores_tangents false (two WEIGHTED) s'
           (f_of_int 5) Hshape Hmode).
Defined.

Lemma resolvePosition_divisor_not_zero_witness :
  let s : Spline := two WEIGHTED in
  let stamp := Binary32.of_int 15 in
  f_gt (f_of_int 0) stamp = false /\
  segment_test s 0 stamp = false /\
  segment_test s 1 stamp = true /\
  getTimestamp (axis_point 100 10) <> S754_zero false /\
  getTimestamp (axis_point 100 10) <> S754_nan.
Proof.
  cbv zeta.
  assert (f_gt (f_of_int 0) (Binary32.of_int 15) = false) as Hstamp
    by (vm_compute; reflexivity).
  assert (segment_test (two WEIGHTED) 0 (Binary32.of_int 15) = false) as H0
    by (vm_compute; reflexivity).
  assert (segment_test (two WEIGHTED) 1 (Binary32.of_int 15) = true) as H1
    by (vm_compute; reflexivity).
  repeat (split; [assumption |]).
  destruct (Binary32Further.resolvePosition_divisor_not_zero false
              (two WEIGHTED) (Binary32.of_int 15) 1 (axis_point 100 10)
              Hstamp eq_refl) as (_ & Hz & Hn); [| exact H1 | ].
  - intros [|j] Hj; [exact H0 | lia].
  - split; [apply Hz | exact Hn].
Defined.

Lemma resolvePosition_unsigned_total_witness :
  let s : Spline := two WEIGHTED in
  0 <= 15 /\ m_points s <> [] /\
  exists v, resolvePosition_unsigned false s 15 = Ok v.
Proof.
  cbv zeta.
  assert (0 <= 15) as Hu by lia.
  assert (m_points (two WEIGHTED) <> []) as Hne by discriminate.
  split; [exact Hu |]. split; [exact Hne |].
  destruct (Binary32Further.resolvePosition_unsigned_total false
              (two WEIGHTED) 15 Hu Hne)
    as [(lst & _ & _ & Hres)|(i & p & _ & _ & _ & Hres)].
  - eexists. exact Hres.
  - rewrite Hres. apply blend_ok; [exact Hne | vm_compute; reflexivity].
Defined.

Lemma addPoint_keeps_groups_apart_witness :
  let s : Spline := Spline_new WEIGHTED in
  Forall is_int16 [1; 2; 3; 4; 1; 2; 3; 4] /\
  (exists s', addPoint true 1 2 3 4 s = Done tt s') /\
  (1, 2, 3, 4) = (1, 2, 3, 4).
Proof.
  cbv zeta.
  assert (Forall is_int16 [1; 2; 3; 4; 1; 2; 3; 4]) as Hall
    by (repeat constructor; unfold is_int16; lia).
  split; [exact Hall |]. split; [eexists; reflexivity |].
  exact (Binary32Further.addPoint_keeps_groups_apart Vec32.mix_lerp true
           (Spline_new WEIGHTED) _ 1 2 3 4 1 2 3 4 Hall eq_refl eq_refl).
Defined.

Lemma resolvePosition_segment_brackets_stamp_witness :
  let s : Spline := two WEIGHTED in
  let stamp : float := f_of_int 15 in
  f_gt (f_of_int 0) stamp = false /\
  segment_test s 0 stamp = false /\
  segment_test s 1 stamp = true /\
  f_gt (time_before s 1) stamp = false /\
  f_gt (f_add (time_before s 1) (f_of_int 10)) stamp = true.
Proof.
  cbv zeta.
  assert (f_gt (f_of_int 0) (f_of_int 15) = false) as Hstamp
    by (vm_compute; reflexivity).
  assert (segment_test (two WEIGHTED) 0 (f_of_int 15) = false) as H0
    by (vm_compute; reflexivity).
  assert (segment_test (two WEIGHTED) 1 (f_of_int 15) = true) as H1
    by (vm_compute; reflexivity).
  split; [exact Hstamp |]. split; [exact H0 |]. split; [exact H1 |].
  destruct (@resolvePosition_segment_brackets_stamp Binary32.ops lerp32
              (two WEIGHTED) (f_of_int 15) 1 (axis_point 100 10)
              Hstamp eq_refl) as (Hlo & Hhi & _); [| exact H1 |].
  - intros [|j] Hj; [exact H0 | lia].
  - split; [exact Hlo | exact Hhi].
Defined.

Lemma readData_returns_only_at_terminator_witness :
  let s : Spline := Spline_new BEZIER in
  exists s' (gs : list group) (tail : list Z),
    readData false two_points 0 s = Done 12 s' /\
    two_points = encode_groups gs ++ [0; 0; 0; 0] ++ tail /\
    12 = 0 + 4 * (Z.of_nat (length gs) + 1).
Proof.
  cbv zeta.
  destruct (readData_run false (Spline_new BEZIER)
              [(0, 0, 0, 10); (100, 0, 0, 10)] [] 0
              (two_groups_accepted false) ltac:(vm_compute; reflexivity))
    as [s' [Hrun _]].
  destruct (readData_returns_only_at_terminator false two_points 0
              (Spline_new BEZIER) 12 s' Hrun)
    as (gs & tail & Hmem & _ & Hcursor & _).
  exists s', gs, tail. split; [exact Hrun |]. split; assumption.
Defined.

Lemma readData_throws_only_on_negative_duration_witness :
  let s : Spline := Spline_new BEZIER in
  readData true negative_duration 0 s = Thrown (InvalidTimestamp (-1)) s /\
  exists (gs : list group) (g : group) (rest : list Z),
    negative_duration = encode_groups gs ++ encode_group g ++ rest /\
    group_duration g < 0 /\
    InvalidTimestamp (-1) = InvalidTimestamp (group_duration g).
Proof.
  cbv zeta.
  assert (readData true negative_duration 0 (Spline_new BEZIER)
          = Thrown (InvalidTimestamp (-1)) (Spline_new BEZIER)) as Hrun
    by reflexivity.
  split; [exact Hrun |].
  destruct (readData_throws_only_on_negative_duration true negative_duration
              0 (Spline_new BEZIER) _ _ Hrun)
    as (_ & gs & g & rest & Hmem & _ & Hneg & He & _).
  exists gs, g, rest. split; [exact Hmem |]. split; assumption.
Defined.

End OnBinary32.
End FurtherWitnesses.
